(** * portguard: the detection pipeline of guard.go

    A shallow embedding of the packet guard of portguard (guard.go): the
    port-in-use cache ([smartVerify]), the per-source scan state
    ([isBlockedIP], [checkStateEngine]), the flag classifier
    ([reportPacketType]), the reaction dispatcher ([runExternalCommand]) and
    one iteration of the capture loops ([tcpGuard], [udpGuard]).

    Go's [int] and [int64] are 64-bit two's-complement integers: they are
    modelled as [Z] with the wrap-around of [+] written out ([int_add]).
    The two process-wide maps are [gmap]s, threaded explicitly.  A Go
    run-time panic is the [None] of an [option] result.  What the code does
    to the outside world (log calls, the bind probe, the spawned reaction)
    is recorded as a list of [Event]s, oldest first. *)

From Stdlib Require Import ZArith Lia Ascii String DecimalString.
From Stdlib Require DecimalPos DecimalZ.
From stdpp Require Import gmap strings list.

Local Open Scope Z_scope.

(** ** Machine integers *)

Definition int_min : Z := - 2 ^ 63.
Definition int_max : Z := 2 ^ 63 - 1.

(** Reduction of a mathematical integer to Go's [int] / [int64]. *)
Definition int_wrap (z : Z) : Z := (z + 2 ^ 63) mod 2 ^ 64 - 2 ^ 63.

Definition int_add (a b : Z) : Z := int_wrap (a + b).

(** [len(s)] as a Go [int]. *)
Definition len {A} (s : list A) : Z := Z.of_nat (length s).

(** [make([]int, sz)[:0]]: the run time panics on a negative length. *)
Definition make_empty (sz : Z) : option (list Z) :=
  if sz <? 0 then None else Some [].

(** ** Configuration (the [cfg...] globals and the command-line flags) *)

(** [net.IP] and [net.IPMask] restricted to IPv4: four bytes. *)
Record IP := mkIP { ip0 : Byte.byte; ip1 : Byte.byte; ip2 : Byte.byte; ip3 : Byte.byte }.

Record IPNet := { net_IP : IP; net_Mask : IP }.

Record Config := {
  mode : string;
  portCacheDuration : Z;
  cfgMinPort : Z;
  cfgMaxPort : Z;
  cfgNoisyPorts : gmap Z bool;
  cfgExcludePorts : gmap Z bool;
  cfgIgnoreIps : list IPNet;
  cfgKillRoute : string;
  cfgKillRunCmd : string;
  cfgKillNotifyUrl : string;
  cfgScanTrigger : Z
}.

(** ** Per-source scan state: [stateEngine map[string][]int] *)

Definition isBlockedIP (cfg : Config) (ip : string)
    (stateEngine : gmap string (list Z)) : bool :=
  match stateEngine !! ip with
  | None => false
  | Some ports => if cfgScanTrigger cfg <? len ports then true else false
  end.

(** The [for _, v := range ports] search of [checkStateEngine]. *)
Fixpoint has_port (port : Z) (ports : list Z) : bool :=
  match ports with
  | [] => false
  | v :: rest => if v =? port then true else has_port port rest
  end.

(** Returns the boolean of the Go function and the map after the call. *)
Definition checkStateEngine (cfg : Config) (ip : string) (port : Z)
    (stateEngine : gmap string (list Z))
    : option (bool * gmap string (list Z)) :=
  let sz := int_add (cfgScanTrigger cfg) 1 in
  match (match stateEngine !! ip with
         | Some ports => Some ports
         | None => make_empty sz
         end) with
  | None => None
  | Some ports =>
      if sz <=? len ports then Some (true, stateEngine)
      else if has_port port ports then Some (false, stateEngine)
      else
        let ports := ports ++ [port] in
        let stateEngine := <[ip := ports]> stateEngine in
        if sz <=? len ports then Some (true, stateEngine)
        else Some (false, stateEngine)
  end.

(** ** Observable effects *)

(** An argument of a variadic log call ([a ...interface{}]). *)
Inductive Arg :=
  | AStr (s : string)
  | AInt (n : Z).

Inductive SockType := SOCK_STREAM | SOCK_DGRAM.

Inductive Event :=
  | LogAlarm (format : string) (a : list Arg)
  | LogBlocked (format : string) (a : list Arg)
  | LogMain (exit : bool) (format : string) (a : list Arg)
  | LogPrintf (format : string) (a : list Arg)
  | SysSocket (stype : SockType)
  | SysBind (port : Z)
  | SysClose
  | GoReaction (ip : string) (port : Z)
  | CallRunCmd (cmd mode ip : string) (port : Z)
  | CallRequestUrl (url mode ip : string) (port : Z).

(** ** Formatting *)

(** [%d] of an integer. *)
Definition itoa (n : Z) : string := NilZero.string_of_int (Z.to_int n).

(** The fragment of [fmt.Sprintf] the formats of guard.go need: the verbs
    [%d] and [%s], each consuming the next argument. *)
Fixpoint Sprintf (format : string) (a : list Arg) : string :=
  match format with
  | EmptyString => EmptyString
  | String c rest =>
      match c, rest, a with
      | "%"%char, String "d" rest', AInt n :: a' => itoa n +:+ Sprintf rest' a'
      | "%"%char, String "s" rest', AStr s :: a' => s +:+ Sprintf rest' a'
      | _, _, _ => String c (Sprintf rest a)
      end
  end.

(** ** Port-in-use verification *)

(** What the operating system answers to the probe of one
    [smartVerifyPort] call: whether [syscall.Socket] and [syscall.Bind]
    return an error. *)
Record Syscalls := { socket_err : bool; bind_err : bool }.

Definition smartVerifyPort (cfg : Config) (port : Z) (os : Syscalls)
    : bool * list Event :=
  let stype := if String.eqb (mode cfg) "udp" then SOCK_DGRAM else SOCK_STREAM in
  if socket_err os then (false, [SysSocket stype])
  else
    let ev := [SysSocket stype; SysBind port; SysClose] in
    if bind_err os then (true, ev) else (false, ev).

(** [now] is [time.Now().Unix()].  Returns the boolean of the Go function,
    [checkedPortCache] after the call and the system calls made. *)
Definition smartVerify (cfg : Config) (port : Z) (now : Z) (os : Syscalls)
    (checkedPortCache : gmap Z Z) : bool * gmap Z Z * list Event :=
  if portCacheDuration cfg <=? 0 then
    let '(ok, ev) := smartVerifyPort cfg port os in (ok, checkedPortCache, ev)
  else
    let timestamp := now in
    let live (checkedPortCache : gmap Z Z) :=
      let '(ok, ev) := smartVerifyPort cfg port os in
      if ok then
        (ok, <[port := int_add timestamp (portCacheDuration cfg)]> checkedPortCache, ev)
      else (ok, checkedPortCache, ev) in
    match checkedPortCache !! port with
    | Some expire =>
        if timestamp <? expire then (true, checkedPortCache, [])
        else live (delete port checkedPortCache)
    | None => live checkedPortCache
    end.

(** ** Policy filters *)

Definition isExlcudePort (cfg : Config) (port : Z) : bool :=
  if (port <? cfgMinPort cfg) || (cfgMaxPort cfg <? port) then true
  else match cfgExcludePorts cfg !! port with
       | Some _ => true
       | None => false
       end.

Definition byteZ (b : Byte.byte) : Z := Z.of_N (Byte.to_N b).

Definition same_under_mask (n m x : Byte.byte) : bool :=
  Z.land (byteZ n) (byteZ m) =? Z.land (byteZ x) (byteZ m).

(** [net.IPNet.Contains] on IPv4 addresses: every byte of the address agrees
    with the network number under the mask. *)
Definition Contains (n : IPNet) (ip : IP) : bool :=
  let nn := net_IP n in
  let m := net_Mask n in
  same_under_mask (ip0 nn) (ip0 m) (ip0 ip)
  && same_under_mask (ip1 nn) (ip1 m) (ip1 ip)
  && same_under_mask (ip2 nn) (ip2 m) (ip2 ip)
  && same_under_mask (ip3 nn) (ip3 m) (ip3 ip).

Definition isIgnoredIP (cfg : Config) (ip : IP) : bool :=
  match cfgIgnoreIps cfg with
  | [] => false
  | nets => existsb (fun n => Contains n ip) nets
  end.

(** [net.IP.String] of an IPv4 address: dotted decimal. *)
Definition IP_String (ip : IP) : string :=
  itoa (byteZ (ip0 ip)) +:+ "." +:+ itoa (byteZ (ip1 ip)) +:+ "."
  +:+ itoa (byteZ (ip2 ip)) +:+ "." +:+ itoa (byteZ (ip3 ip)).

(** ** Transport headers *)

(** Modelled from the spec: the control-flag constants [FIN], [SYN], [RST],
    [PSH], [ACK], [URG] are declared outside guard.go; the spec lists the
    bits of the TCP control-flag mask in this order (RFC 793). *)
Definition FIN : Z := 1.
Definition SYN : Z := 2.
Definition RST : Z := 4.
Definition PSH : Z := 8.
Definition ACK : Z := 16.
Definition URG : Z := 32.

(** The fields of [TCPHeader] and [UDPHeader] that guard.go reads. *)
Record TCPHeader := { tcp_Source : Z; tcp_Destination : Z; tcp_Ctrl : Z }.
Record UDPHeader := { udp_Source : Z; udp_Destination : Z; udp_Length : Z }.

(** [var tcp TCPHeader] and [var udp UDPHeader]: Go's zero values. *)
Definition zeroTCP : TCPHeader := {| tcp_Source := 0; tcp_Destination := 0; tcp_Ctrl := 0 |}.
Definition zeroUDP : UDPHeader := {| udp_Source := 0; udp_Destination := 0; udp_Length := 0 |}.

Inductive ParseError := Malformed.

(** Big-endian [uint16] at byte offset [i] of [data]. *)
Definition be16 (data : list Byte.byte) (i : nat) : Z :=
  byteZ (nth i data Byte.x00) * 256 + byteZ (nth (i + 1) data Byte.x00).

(** Modelled from the spec: [NewTCPHeader] is declared outside guard.go.
    A buffer shorter than 20 bytes is [Malformed] and yields no header (the
    caller's header variable keeps its value); otherwise the source port is
    bytes 0-1, the destination port bytes 2-3 and the control flags the
    flags octet at its RFC 793 offset, 13. *)
Definition NewTCPHeader (data : list Byte.byte) (tcp : TCPHeader)
    : TCPHeader * option ParseError :=
  if len data <? 20 then (tcp, Some Malformed)
  else ({| tcp_Source := be16 data 0;
           tcp_Destination := be16 data 2;
           tcp_Ctrl := byteZ (nth 13 data Byte.x00) |}, None).

(** Modelled from the spec: [NewUDPHeader] is declared outside guard.go.
    A buffer shorter than 8 bytes is [Malformed]; otherwise ports at bytes
    0-1 and 2-3, length at bytes 4-5 (RFC 768). *)
Definition NewUDPHeader (data : list Byte.byte) (udp : UDPHeader)
    : UDPHeader * option ParseError :=
  if len data <? 8 then (udp, Some Malformed)
  else ({| udp_Source := be16 data 0;
           udp_Destination := be16 data 2;
           udp_Length := be16 data 4 |}, None).

(** Modelled from the spec: the method [HasFlag] of [TCPHeader] is declared
    outside guard.go; a flag is set when its bit of the control mask is. *)
Definition HasFlag (tcp : TCPHeader) (flagBit : Z) : bool :=
  negb (Z.land (tcp_Ctrl tcp) flagBit =? 0).

(** ** Packet classification *)

Definition tcpPacketTypeNull : string := "TCP NULL scan".
Definition tcpPacketTypeXMAS : string := "TCP XMAS scan".
Definition tcpPacketTypeSYN : string := "TCP SYN/Normal scan".
Definition tcpPacketTypeUnknown : string :=
  "Unknown Type: TCP Packet Flags(FIN,SYN,RST,PSH,ACK,URG): %d".

(** [flags] is a [uint8]; the result is the string the returned pointer
    refers to. *)
Definition reportPacketType (flags : Z) : string :=
  if flags =? 0 then tcpPacketTypeNull
  else if Z.land flags (Z.lor (Z.lor FIN URG) PSH) =? Z.lor (Z.lor FIN URG) PSH
  then tcpPacketTypeXMAS
  else if flags =? SYN then tcpPacketTypeSYN
  else Sprintf tcpPacketTypeUnknown [AInt flags].

(** ** Reaction dispatch *)

(** The caller's side of [runExternalCommand]: a goroutine is started unless
    no reaction is configured. *)
Definition runExternalCommand (cfg : Config) (ip : string) (port : Z)
    : list Event :=
  if String.eqb (cfgKillRoute cfg) EmptyString && String.eqb (cfgKillRunCmd cfg) EmptyString
     && String.eqb (cfgKillNotifyUrl cfg) EmptyString
  then []
  else [GoReaction ip port].

(** What the three external calls of one goroutine return: [None] for a nil
    error, [Some e] for an error whose [Error()] is [e].  [runCmd] and
    [requestUrl] themselves are declared outside guard.go. *)
Record ReactionResults := {
  killRoute_err : option string;
  killRunCmd_err : option string;
  killNotifyUrl_err : option string
}.

Definition on_error (err : option string) (format : string)
    (a : string -> list Arg) : list Event :=
  match err with
  | Some e => [LogMain false format (a e)]
  | None => []
  end.

(** The body of the goroutine of [runExternalCommand]. *)
Definition reactionBody (cfg : Config) (res : ReactionResults)
    (ip : string) (port : Z) : list Event :=
  (if negb (String.eqb (cfgKillRoute cfg) EmptyString) then
     CallRunCmd (cfgKillRoute cfg) (mode cfg) ip port
     :: on_error (killRoute_err res) "run kill_route:%s, host:%s:%d failed:%s"
          (fun e => [AStr (cfgKillRoute cfg); AStr ip; AInt port; AStr e])
   else [])
  ++ (if negb (String.eqb (cfgKillRunCmd cfg) EmptyString) then
        CallRunCmd (cfgKillRunCmd cfg) (mode cfg) ip port
        :: on_error (killRunCmd_err res) "run kill_run_cmd:%s, host:%s:%d failed:%s"
             (fun e => [AStr (cfgKillRunCmd cfg); AStr ip; AInt port; AStr e])
      else [])
  ++ (if negb (String.eqb (cfgKillNotifyUrl cfg) EmptyString) then
        CallRequestUrl (cfgKillNotifyUrl cfg) (mode cfg) ip port
        :: on_error (killNotifyUrl_err res)
             "notify kill_notify_url:%s, host:%s:%d failed:%s"
             (fun e => [AStr (cfgKillNotifyUrl cfg); AStr ip; AInt port; AStr e])
      else []).

(** ** The capture loops *)

(** The two process-wide maps. *)
Record Globals := {
  checkedPortCache : gmap Z Z;
  stateEngine : gmap string (list Z)
}.

(** [init]: both maps start empty. *)
Definition initGlobals : Globals :=
  {| checkedPortCache := ∅; stateEngine := ∅ |}.

(** What [conn.ReadFromIP(b)] returns: an error, or the bytes read
    ([b[:numRead]]) and the sender. *)
Inductive ReadResult :=
  | ReadError (err : string)
  | ReadOk (data : list Byte.byte) (remoteAddr : IP).

(** The environment of one loop iteration: the packet read, the clock and
    the system's answer should the iteration probe a port. *)
Record Input := { read : ReadResult; clock : Z; os : Syscalls }.

(** The steps [tcpGuard] and [udpGuard] share, from [isExlcudePort] to the
    end of the loop body.  [alarm] is the [logAlarm] call of the loop and
    [blockedFormat] the format of its [logBlocked] call. *)
Definition guardPacket (cfg : Config) (g : Globals) (ip : IP) (port : Z)
    (now : Z) (os : Syscalls) (alarm : Event) (blockedFormat : string)
    : option (Globals * list Event) :=
  let ipString := IP_String ip in
  if isExlcudePort cfg port then Some (g, [])
  else if isIgnoredIP cfg ip then Some (g, [])
  else if isBlockedIP cfg ipString (stateEngine g) then Some (g, [])
  else
    let '(inUse, cache, ev) := smartVerify cfg port now os (checkedPortCache g) in
    let g := {| checkedPortCache := cache; stateEngine := stateEngine g |} in
    if inUse then Some (g, ev)
    else
      match checkStateEngine cfg ipString port (stateEngine g) with
      | None => None
      | Some (trigger, engine) =>
          let g := {| checkedPortCache := cache; stateEngine := engine |} in
          if trigger then
            Some (g, ev ++ [alarm; LogBlocked blockedFormat [AStr ipString; AInt port]]
                        ++ runExternalCommand cfg ipString port)
          else Some (g, ev ++ [alarm])
      end.

(** One iteration of the [for] loop of [tcpGuard]; [tcp] is the header
    variable declared before the loop. *)
Definition tcpGuard_iter (cfg : Config) (g : Globals) (tcp : TCPHeader)
    (i : Input) : option (Globals * TCPHeader * list Event) :=
  match read i with
  | ReadError err => Some (g, tcp, [LogMain false "read from ip:%s" [AStr err]])
  | ReadOk data remoteAddr =>
      let tcp := fst (NewTCPHeader data tcp) in
      if HasFlag tcp RST || HasFlag tcp ACK then Some (g, tcp, [])
      else
        let port := tcp_Destination tcp in
        let ipString := IP_String remoteAddr in
        match guardPacket cfg g remoteAddr port (clock i) (os i)
                (LogAlarm "attackalert: %s from host: %s to TCP port: %d"
                   [AStr (reportPacketType (tcp_Ctrl tcp)); AStr ipString; AInt port])
                "Host: %s Port: %d TCP Blocked" with
        | None => None
        | Some (g, ev) => Some (g, tcp, ev)
        end
  end.

(** One iteration of the [for] loop of [udpGuard]. *)
Definition udpGuard_iter (cfg : Config) (g : Globals) (udp : UDPHeader)
    (i : Input) : option (Globals * UDPHeader * list Event) :=
  match read i with
  | ReadError err => Some (g, udp, [LogMain false "read from ip:%s" [AStr err]])
  | ReadOk data remoteAddr =>
      let udp := fst (NewUDPHeader data udp) in
      let port := udp_Destination udp in
      match cfgNoisyPorts cfg !! port with
      | Some _ => Some (g, udp, [])
      | None =>
          let ipString := IP_String remoteAddr in
          let pr := LogPrintf "%v: %d->%d"
                      [AStr ipString; AInt (udp_Source udp); AInt (udp_Destination udp)] in
          match guardPacket cfg g remoteAddr port (clock i) (os i)
                  (LogAlarm "attackalert: UDP scan from host: %s to UDP port: %d"
                     [AStr ipString; AInt port])
                  "Host: %s Port: %d UDP Blocked" with
          | None => None
          | Some (g, ev) => Some (g, udp, pr :: ev)
          end
      end
  end.

(** The loop of [tcpGuard] over the packets of [inputs], in order. *)
Fixpoint tcpGuard_run (cfg : Config) (g : Globals) (tcp : TCPHeader)
    (inputs : list Input) : option (Globals * TCPHeader * list Event) :=
  match inputs with
  | [] => Some (g, tcp, [])
  | i :: rest =>
      match tcpGuard_iter cfg g tcp i with
      | None => None
      | Some (g, tcp, ev) =>
          match tcpGuard_run cfg g tcp rest with
          | None => None
          | Some (g, tcp, ev') => Some (g, tcp, ev ++ ev')
          end
      end
  end.

Fixpoint udpGuard_run (cfg : Config) (g : Globals) (udp : UDPHeader)
    (inputs : list Input) : option (Globals * UDPHeader * list Event) :=
  match inputs with
  | [] => Some (g, udp, [])
  | i :: rest =>
      match udpGuard_iter cfg g udp i with
      | None => None
      | Some (g, udp, ev) =>
          match udpGuard_run cfg g udp rest with
          | None => None
          | Some (g, udp, ev') => Some (g, udp, ev ++ ev')
          end
      end
  end.


(** ** Vocabulary of the properties *)

(** One loop iteration's input: a packet [data] from [addr]. *)
Definition packet (data : list Byte.byte) (addr : IP) (now : Z) (o : Syscalls) : Input :=
  {| read := ReadOk data addr; clock := now; os := o |}.

(** [scan_trigger] as [parseInt] admits it (never negative), short of the
    one value whose successor wraps around. *)
Definition valid_trigger (cfg : Config) : Prop :=
  0 <= cfgScanTrigger cfg < int_max.

(** The ports recorded for [ip]; none when the source is unseen. *)
Definition ports_of (ip : string) (stateEngine : gmap string (list Z)) : list Z :=
  default [] (stateEngine !! ip).

(** The invariant of [stateEngine]: every stored sequence has at most
    [cfgScanTrigger + 1] entries and no port twice. *)
Definition engine_inv (cfg : Config) (se : gmap string (list Z)) : Prop :=
  map_Forall (fun _ ports => len ports <= cfgScanTrigger cfg + 1 /\ NoDup ports) se.

(** A configuration with the defaults of guard.go, a 60 second port cache
    and a scan trigger of 2. *)
Definition cfg_trigger2 : Config :=
  {| mode := "tcp"; portCacheDuration := 60;
     cfgMinPort := 0; cfgMaxPort := 65535;
     cfgNoisyPorts := ∅; cfgExcludePorts := ∅; cfgIgnoreIps := [];
     cfgKillRoute := "/sbin/route add -host $TARGET$ reject";
     cfgKillRunCmd := EmptyString; cfgKillNotifyUrl := EmptyString;
     cfgScanTrigger := 2 |}.






(** The flags octet of a TCP segment (offset 13, RFC 793). *)
Definition flags_octet (data : list Byte.byte) : Z := byteZ (nth 13 data Byte.x00).

(** A 20-byte TCP segment 12345 -> 9999 with the given flags octet. *)
Definition segment_to_9999 (flags : Byte.byte) : list Byte.byte :=
  [Byte.x30; Byte.x39; Byte.x27; Byte.x0f;
   Byte.x00; Byte.x00; Byte.x00; Byte.x01;
   Byte.x00; Byte.x00; Byte.x00; Byte.x00;
   Byte.x50; flags; Byte.xff; Byte.xff;
   Byte.x00; Byte.x00; Byte.x00; Byte.x00].

Definition addr_10_0_0_5 : IP := mkIP Byte.x0a Byte.x00 Byte.x00 Byte.x05.

(** The system's answers: the port is free, the port is bound, no socket
    can be created. *)
Definition os_free : Syscalls := {| socket_err := false; bind_err := false |}.
Definition os_bound : Syscalls := {| socket_err := false; bind_err := true |}.

(** [checkedPortCache] holds no entry for [port] that is still valid at
    [now]: [smartVerify] will probe. *)
Definition no_valid_entry (port now : Z) (cache : gmap Z Z) : Prop :=
  forall expire, cache !! port = Some expire -> expire <= now.

(** The socket type [smartVerifyPort] asks for. *)
Definition probe_type (cfg : Config) : SockType :=
  if String.eqb (mode cfg) "udp" then SOCK_DGRAM else SOCK_STREAM.

(** The values of a [uint8]. *)
Definition byte_values : list Z := map Z.of_nat (seq 0 256).

(** The spec's tagged variant for a control-flag byte, and the
    classification in the spec's words: Null when the byte is 0, else Xmas
    when FIN, URG and PSH are all set, else Syn when the byte is SYN alone,
    else Unknown with the byte. *)
Inductive PacketType :=
  | Null
  | Xmas
  | Syn
  | Unknown (flags : Z).

Definition all_set (flags : Z) : Prop :=
  Z.land flags FIN <> 0 /\ Z.land flags URG <> 0 /\ Z.land flags PSH <> 0.

Definition classify (flags : Z) : PacketType :=
  if decide (flags = 0) then Null
  else if decide (all_set flags) then Xmas
  else if decide (flags = SYN) then Syn
  else Unknown flags.

(** The text the code reports for an unknown combination of flags. *)
Definition unknown_label (flags : Z) : string :=
  Sprintf tcpPacketTypeUnknown [AInt flags].

Definition label (t : PacketType) : string :=
  match t with
  | Null => tcpPacketTypeNull
  | Xmas => tcpPacketTypeXMAS
  | Syn => tcpPacketTypeSYN
  | Unknown flags => unknown_label flags
  end.

(** The external calls among the events of a reaction goroutine. *)
Definition is_call (e : Event) : bool :=
  match e with
  | CallRunCmd _ _ _ _ | CallRequestUrl _ _ _ _ => true
  | _ => false
  end.

Definition calls_of (evs : list Event) : list Event := List.filter is_call evs.

(** All three reactions succeed. *)
Definition no_errors : ReactionResults :=
  {| killRoute_err := None; killRunCmd_err := None; killNotifyUrl_err := None |}.

(** A configuration with the three reactions set. *)
Definition cfg_reactions : Config :=
  {| mode := "tcp"; portCacheDuration := 120;
     cfgMinPort := 0; cfgMaxPort := 65535;
     cfgNoisyPorts := ∅; cfgExcludePorts := ∅; cfgIgnoreIps := [];
     cfgKillRoute := "/usr/local/bin/kill_route";
     cfgKillRunCmd := "/usr/local/bin/on_blocked";
     cfgKillNotifyUrl := "http://127.0.0.1:8080/blocked";
     cfgScanTrigger := 0 |}.

(** The header of [segment_to_9999 Byte.x02]. *)
Definition syn_header : TCPHeader :=
  {| tcp_Source := 12345; tcp_Destination := 9999; tcp_Ctrl := 2 |}.

(** An 8-byte UDP datagram 12345 -> 9999 and its header. *)
Definition datagram_to_9999 : list Byte.byte :=
  [Byte.x30; Byte.x39; Byte.x27; Byte.x0f; Byte.x00; Byte.x08; Byte.x00; Byte.x00].


(** ** Vocabulary of the further properties *)

(** [port] is outside the monitored range or in the exclude set. *)
Definition excluded (cfg : Config) (port : Z) : Prop :=
  port < cfgMinPort cfg \/ cfgMaxPort cfg < port
  \/ is_Some (cfgExcludePorts cfg !! port).

(** Some network of the ignore list contains [ip]. *)
Definition ignored (cfg : Config) (ip : IP) : Prop :=
  exists n, In n (cfgIgnoreIps cfg) /\ Contains n ip = true.

Definition is_alarm (e : Event) : bool :=
  match e with
  | LogAlarm _ _ => true
  | _ => false
  end.

(** The system calls of a probe. *)
Definition is_sys (e : Event) : bool :=
  match e with
  | SysSocket _ | SysBind _ | SysClose => true
  | _ => false
  end.

Definition is_main_log (e : Event) : bool :=
  match e with
  | LogMain _ _ _ => true
  | _ => false
  end.

Definition is_read_ok (i : Input) : bool :=
  match read i with
  | ReadOk _ _ => true
  | ReadError _ => false
  end.

(** Every stored sequence of [se] is kept, as a prefix, in [se']. *)
Definition grows (se se' : gmap string (list Z)) : Prop :=
  forall ip, ports_of ip se `prefix_of` ports_of ip se'.

(** [se'] differs from [se] at most at the keys in [ips]. *)
Definition same_outside (ips : list string) (se se' : gmap string (list Z)) : Prop :=
  forall ip, ~ In ip ips -> se' !! ip = se !! ip.

(** The key under which the sender of an input is tracked; none for a
    failed read. *)
Definition sender (i : Input) : list string :=
  match read i with
  | ReadOk _ remoteAddr => [IP_String remoteAddr]
  | ReadError _ => []
  end.

(** The keys of all senders of a run, in order. *)
Definition senders (inputs : list Input) : list string := flat_map sender inputs.

(** The text up to the first dot, and the text after it. *)
Fixpoint until_dot (s : string) : string * string :=
  match s with
  | EmptyString => (EmptyString, EmptyString)
  | String c rest =>
      if Ascii.eqb c "." then (EmptyString, rest)
      else let '(a, b) := until_dot rest in (String c a, b)
  end.

(** The events of a run other than [logMain] lines. *)
Definition without_main_log (evs : list Event) : list Event :=
  List.filter (fun e => negb (is_main_log e)) evs.

(** * Start-up: configuration values *)

(** An argument of a start-up log call.  [CErr call arg] stands for
    [err.Error()] of the error that the library function [call] returns
    for [arg]. *)
Inductive ConfigArg :=
  | CStr (s : string)
  | CInt (n : Z)
  | CErr (call arg : string).

(** What a start-up function yields: its value, or a [logMain(true, ...)]
    call, after which the process has exited. *)
Inductive Parsed (A : Type) :=
  | Value (a : A)
  | Fatal (format : string) (a : list ConfigArg).
Arguments Value {A} a.
Arguments Fatal {A} format a.

Definition digit_of (c : ascii) : option Z :=
  let n := Z.of_N (N_of_ascii c) in
  if (48 <=? n) && (n <=? 57) then Some (n - 48) else None.

(** The value of a string of decimal digits, continuing from [n]. *)
Fixpoint digits (s : string) (n : Z) : option Z :=
  match s with
  | EmptyString => Some n
  | String c rest =>
      match digit_of c with
      | Some d => digits rest (n * 10 + d)
      | None => None
      end
  end.

(** [strconv.Atoi]: an optional sign, then at least one decimal digit and
    nothing else, the value within the range of [int]; [None] for any
    error it reports (syntax or range). *)
Definition Atoi (s : string) : option Z :=
  let '(neg, body) :=
    match s with
    | String "-" rest => (true, rest)
    | String "+" rest => (false, rest)
    | _ => (false, s)
    end in
  match body with
  | EmptyString => None
  | _ =>
      match digits body 0 with
      | None => None
      | Some n =>
          let v := if neg then - n else n in
          if (int_min <=? v) && (v <=? int_max) then Some v else None
      end
  end.

Definition parseInt (lineno : Z) (token value : string) : Parsed Z :=
  match Atoi value with
  | None =>
      Fatal "line %d:%s, convert %s to int failed:%s"
        [CInt lineno; CStr token; CStr value; CErr "strconv.Atoi" value]
  | Some v =>
      if v <? 0 then
        Fatal "line %d:%s, invalid value:%d" [CInt lineno; CStr token; CInt v]
      else Value v
  end.

(** The value of a decimal numeral, most significant digit first,
    continuing from [n]. *)
Fixpoint uint_value (d : Decimal.uint) (n : Z) : Z :=
  match d with
  | Decimal.Nil => n
  | Decimal.D0 d => uint_value d (n * 10 + 0)
  | Decimal.D1 d => uint_value d (n * 10 + 1)
  | Decimal.D2 d => uint_value d (n * 10 + 2)
  | Decimal.D3 d => uint_value d (n * 10 + 3)
  | Decimal.D4 d => uint_value d (n * 10 + 4)
  | Decimal.D5 d => uint_value d (n * 10 + 5)
  | Decimal.D6 d => uint_value d (n * 10 + 6)
  | Decimal.D7 d => uint_value d (n * 10 + 7)
  | Decimal.D8 d => uint_value d (n * 10 + 8)
  | Decimal.D9 d => uint_value d (n * 10 + 9)
  end.

(** * Start-up: [configGuard] *)

(** An [io.Writer] a logger writes to: a log file of the configuration, or
    [os.Stderr]. *)
Inductive Writer :=
  | FileWriter (path : string)
  | Stderr.

(** A [*log.Logger], as the writers of its [io.MultiWriter]; [None] is the
    nil logger. *)
Definition createLogger (debug : bool) (extra : option Writer)
    : option (list Writer) :=
  let writers := match extra with
                 | Some w => [w]
                 | None => []
                 end in
  let writers := if debug then writers ++ [Stderr] else writers in
  match writers with
  | [] => None
  | _ => Some writers
  end.

(** One entry of [net.InterfaceAddrs()]: [addr.Network()], and what
    [net.ParseIP(strings.Split(addr.String(), "/")[0])] followed by
    [To4()] gives for it ([None] when either is nil). *)
Record InterfaceAddr := { addr_Network : string; addr_IP4 : option IP }.

(** What [net.ParseCIDR("127.0.0.1/8")] returns: network 127.0.0.0, mask
    255.0.0.0. *)
Definition loopbackNet : IPNet :=
  {| net_IP := mkIP Byte.x7f Byte.x00 Byte.x00 Byte.x00;
     net_Mask := mkIP Byte.xff Byte.x00 Byte.x00 Byte.x00 |}.

(** [net.CIDRMask(32, 32)]. *)
Definition mask32 : IP := mkIP Byte.xff Byte.xff Byte.xff Byte.xff.

(** Assignment to the global [cfgIgnoreIps]. *)
Definition set_cfgIgnoreIps (cfg : Config) (nets : list IPNet) : Config :=
  {| mode := mode cfg;
     portCacheDuration := portCacheDuration cfg;
     cfgMinPort := cfgMinPort cfg;
     cfgMaxPort := cfgMaxPort cfg;
     cfgNoisyPorts := cfgNoisyPorts cfg;
     cfgExcludePorts := cfgExcludePorts cfg;
     cfgIgnoreIps := nets;
     cfgKillRoute := cfgKillRoute cfg;
     cfgKillRunCmd := cfgKillRunCmd cfg;
     cfgKillNotifyUrl := cfgKillNotifyUrl cfg;
     cfgScanTrigger := cfgScanTrigger cfg |}.

(** The body of the [for _, addr := range addrs] loop of [configGuard]. *)
Definition add_local_addr (cfg : Config) (addr : InterfaceAddr) : Config :=
  if String.eqb (addr_Network addr) "ip+net" then
    match addr_IP4 addr with
    | Some ip =>
        if negb (isIgnoredIP cfg ip) then
          set_cfgIgnoreIps cfg
            (cfgIgnoreIps cfg ++ [{| net_IP := ip; net_Mask := mask32 |}])
        else cfg
    | None => cfg
    end
  else cfg.

(** What [configGuard] leaves behind: the configuration, the two loggers
    and the lines it logged. *)
Record StartUp := {
  su_cfg : Config;
  alarmLogger : option (list Writer);
  blockedLogger : option (list Writer);
  su_events : list Event
}.

(** [debug] is the [-d] flag, [cfgAlarmLog] and [cfgBlockedLog] the log
    files of the configuration (if any), [ifaces] the result of
    [net.InterfaceAddrs()]: the addresses, or the text of its error. *)
Definition configGuard (debug : bool) (cfgAlarmLog cfgBlockedLog : option Writer)
    (ifaces : list InterfaceAddr + string) (cfg : Config) : Parsed StartUp :=
  let cfg := set_cfgIgnoreIps cfg (cfgIgnoreIps cfg ++ [loopbackNet]) in
  match ifaces with
  | inr err =>
      Fatal "query system network interface addresses failed:%s" [CStr err]
  | inl addrs =>
      let cfg := fold_left add_local_addr addrs cfg in
      let alarm := createLogger debug cfgAlarmLog in
      let ev1 := match alarm with
                 | None => [LogMain false "WARNING no alarm log" []]
                 | Some _ => []
                 end in
      let blocked := createLogger debug cfgBlockedLog in
      let ev2 := match blocked with
                 | None => [LogMain false "WARNING no blocked log" []]
                 | Some _ => []
                 end in
      Value {| su_cfg := cfg; alarmLogger := alarm; blockedLogger := blocked;
               su_events := ev1 ++ ev2 |}
  end.

(** [ip] is one of the IPv4 addresses of the local interfaces. *)
Definition local_addr (addrs : list InterfaceAddr) (ip : IP) : Prop :=
  exists a, In a addrs /\ addr_Network a = "ip+net" /\ addr_IP4 a = Some ip.

(** * Start-up: lines of the configuration file *)

(** The white space of [strings.TrimSpace] among the ASCII characters:
    tab, line feed, vertical tab, form feed, carriage return, space. *)
Definition is_space (c : ascii) : bool :=
  match c with
  | "009" | "010" | "011" | "012" | "013" | " " => true
  | _ => false
  end%char.

(** Drop the leading characters that satisfy [p]. *)
Fixpoint trim_left (p : ascii -> bool) (s : string) : string :=
  match s with
  | EmptyString => EmptyString
  | String c rest => if p c then trim_left p rest else s
  end.

(** Drop the trailing characters that satisfy [p]. *)
Fixpoint trim_right (p : ascii -> bool) (s : string) : string :=
  match s with
  | EmptyString => EmptyString
  | String c rest =>
      match trim_right p rest with
      | EmptyString => if p c then EmptyString else String c EmptyString
      | rest' => String c rest'
      end
  end.

(** [strings.TrimSpace] on ASCII text.  (At a byte of 128 or more Go
    decodes UTF-8 and also trims Unicode white space; the properties that
    depend on it are stated for ASCII strings.) *)
Definition TrimSpace (s : string) : string :=
  trim_right is_space (trim_left is_space s).

Fixpoint in_cutset (cutset : string) (c : ascii) : bool :=
  match cutset with
  | EmptyString => false
  | String c' rest => Ascii.eqb c c' || in_cutset rest c
  end.

(** [strings.TrimRight] for a cutset of ASCII characters. *)
Definition TrimRight (s cutset : string) : string :=
  trim_right (in_cutset cutset) s.

(** The text before and after the first [sep] of [s], if there is one. *)
Fixpoint cut (sep : ascii) (s : string) : option (string * string) :=
  match s with
  | EmptyString => None
  | String c rest =>
      if Ascii.eqb c sep then Some (EmptyString, rest)
      else match cut sep rest with
           | Some (a, b) => Some (String c a, b)
           | None => None
           end
  end.

(** [strings.SplitN(s, sep, 2)] for a separator of one character. *)
Definition SplitN2 (s : string) (sep : ascii) : list string :=
  match cut sep s with
  | Some (a, b) => [a; b]
  | None => [s]
  end.

(** Carriage return, line feed: the cutset ["\r\n"]. *)
Definition crlf : string := String "013" (String "010" EmptyString).

Definition parseToken (line : string) : string * string :=
  let line := TrimRight line crlf in
  match SplitN2 line "=" with
  | [t0; t1] =>
      let value := TrimSpace t1 in
      if String.eqb value EmptyString then (EmptyString, EmptyString)
      else (TrimSpace t0, value)
  | _ => (EmptyString, EmptyString)
  end.

(** Every character of [s] satisfies [p]. *)
Fixpoint all_chars (p : ascii -> bool) (s : string) : bool :=
  match s with
  | EmptyString => true
  | String c rest => p c && all_chars p rest
  end.

Definition is_ascii (c : ascii) : bool := (N_of_ascii c <? 128)%N.

(** [s] neither starts nor ends with white space. *)
Definition trimmed (s : string) : Prop :=
  trim_left is_space s = s /\ trim_right is_space s = s.

(** * Start-up: [readConfigFile] *)

(** Sequencing of start-up steps: a fatal log ends everything. *)
Definition and_then {A B} (r : Parsed A) (k : A -> Parsed B) : Parsed B :=
  match r with
  | Value a => k a
  | Fatal format a => Fatal format a
  end.

(** The library and system calls whose outcome [readConfigFile] depends
    on: [net.ParseCIDR] (the network, or [None] for an error), whether
    [url.Parse] accepts a text, whether [os.OpenFile] can open a path. *)
Record FileEnv := {
  ParseCIDR : string -> option IPNet;
  url_Parse_ok : string -> bool;
  OpenFile_ok : string -> bool
}.

(** The globals that [readConfigFile] assigns. *)
Record Settings := {
  st_cfg : Config;
  cfgAlarmLogPath : string;
  cfgAlarmLog : option Writer;
  cfgBlockedLogPath : string;
  cfgBlockedLog : option Writer
}.

Definition with_cfg (f : Config -> Config) (st : Settings) : Settings :=
  {| st_cfg := f (st_cfg st);
     cfgAlarmLogPath := cfgAlarmLogPath st;
     cfgAlarmLog := cfgAlarmLog st;
     cfgBlockedLogPath := cfgBlockedLogPath st;
     cfgBlockedLog := cfgBlockedLog st |}.

Definition set_alarm_log (path : string) (w : Writer) (st : Settings) : Settings :=
  {| st_cfg := st_cfg st;
     cfgAlarmLogPath := path;
     cfgAlarmLog := Some w;
     cfgBlockedLogPath := cfgBlockedLogPath st;
     cfgBlockedLog := cfgBlockedLog st |}.

Definition set_blocked_log (path : string) (w : Writer) (st : Settings) : Settings :=
  {| st_cfg := st_cfg st;
     cfgAlarmLogPath := cfgAlarmLogPath st;
     cfgAlarmLog := cfgAlarmLog st;
     cfgBlockedLogPath := path;
     cfgBlockedLog := Some w |}.

(** Assignments to the other [cfg...] globals. *)
Definition set_cfgMinPort (v : Z) (cfg : Config) : Config :=
  {| mode := mode cfg; portCacheDuration := portCacheDuration cfg;
     cfgMinPort := v; cfgMaxPort := cfgMaxPort cfg;
     cfgNoisyPorts := cfgNoisyPorts cfg; cfgExcludePorts := cfgExcludePorts cfg;
     cfgIgnoreIps := cfgIgnoreIps cfg; cfgKillRoute := cfgKillRoute cfg;
     cfgKillRunCmd := cfgKillRunCmd cfg; cfgKillNotifyUrl := cfgKillNotifyUrl cfg;
     cfgScanTrigger := cfgScanTrigger cfg |}.

Definition set_cfgMaxPort (v : Z) (cfg : Config) : Config :=
  {| mode := mode cfg; portCacheDuration := portCacheDuration cfg;
     cfgMinPort := cfgMinPort cfg; cfgMaxPort := v;
     cfgNoisyPorts := cfgNoisyPorts cfg; cfgExcludePorts := cfgExcludePorts cfg;
     cfgIgnoreIps := cfgIgnoreIps cfg; cfgKillRoute := cfgKillRoute cfg;
     cfgKillRunCmd := cfgKillRunCmd cfg; cfgKillNotifyUrl := cfgKillNotifyUrl cfg;
     cfgScanTrigger := cfgScanTrigger cfg |}.

Definition add_cfgNoisyPort (port : Z) (cfg : Config) : Config :=
  {| mode := mode cfg; portCacheDuration := portCacheDuration cfg;
     cfgMinPort := cfgMinPort cfg; cfgMaxPort := cfgMaxPort cfg;
     cfgNoisyPorts := <[port := true]> (cfgNoisyPorts cfg);
     cfgExcludePorts := cfgExcludePorts cfg;
     cfgIgnoreIps := cfgIgnoreIps cfg; cfgKillRoute := cfgKillRoute cfg;
     cfgKillRunCmd := cfgKillRunCmd cfg; cfgKillNotifyUrl := cfgKillNotifyUrl cfg;
     cfgScanTrigger := cfgScanTrigger cfg |}.

Definition add_cfgExcludePort (port : Z) (cfg : Config) : Config :=
  {| mode := mode cfg; portCacheDuration := portCacheDuration cfg;
     cfgMinPort := cfgMinPort cfg; cfgMaxPort := cfgMaxPort cfg;
     cfgNoisyPorts := cfgNoisyPorts cfg;
     cfgExcludePorts := <[port := true]> (cfgExcludePorts cfg);
     cfgIgnoreIps := cfgIgnoreIps cfg; cfgKillRoute := cfgKillRoute cfg;
     cfgKillRunCmd := cfgKillRunCmd cfg; cfgKillNotifyUrl := cfgKillNotifyUrl cfg;
     cfgScanTrigger := cfgScanTrigger cfg |}.

Definition add_cfgIgnoreIp (n : IPNet) (cfg : Config) : Config :=
  set_cfgIgnoreIps cfg (cfgIgnoreIps cfg ++ [n]).

Definition set_cfgKillRoute (v : string) (cfg : Config) : Config :=
  {| mode := mode cfg; portCacheDuration := portCacheDuration cfg;
     cfgMinPort := cfgMinPort cfg; cfgMaxPort := cfgMaxPort cfg;
     cfgNoisyPorts := cfgNoisyPorts cfg; cfgExcludePorts := cfgExcludePorts cfg;
     cfgIgnoreIps := cfgIgnoreIps cfg; cfgKillRoute := v;
     cfgKillRunCmd := cfgKillRunCmd cfg; cfgKillNotifyUrl := cfgKillNotifyUrl cfg;
     cfgScanTrigger := cfgScanTrigger cfg |}.

Definition set_cfgKillRunCmd (v : string) (cfg : Config) : Config :=
  {| mode := mode cfg; portCacheDuration := portCacheDuration cfg;
     cfgMinPort := cfgMinPort cfg; cfgMaxPort := cfgMaxPort cfg;
     cfgNoisyPorts := cfgNoisyPorts cfg; cfgExcludePorts := cfgExcludePorts cfg;
     cfgIgnoreIps := cfgIgnoreIps cfg; cfgKillRoute := cfgKillRoute cfg;
     cfgKillRunCmd := v; cfgKillNotifyUrl := cfgKillNotifyUrl cfg;
     cfgScanTrigger := cfgScanTrigger cfg |}.

Definition set_cfgKillNotifyUrl (v : string) (cfg : Config) : Config :=
  {| mode := mode cfg; portCacheDuration := portCacheDuration cfg;
     cfgMinPort := cfgMinPort cfg; cfgMaxPort := cfgMaxPort cfg;
     cfgNoisyPorts := cfgNoisyPorts cfg; cfgExcludePorts := cfgExcludePorts cfg;
     cfgIgnoreIps := cfgIgnoreIps cfg; cfgKillRoute := cfgKillRoute cfg;
     cfgKillRunCmd := cfgKillRunCmd cfg; cfgKillNotifyUrl := v;
     cfgScanTrigger := cfgScanTrigger cfg |}.

Definition set_cfgScanTrigger (v : Z) (cfg : Config) : Config :=
  {| mode := mode cfg; portCacheDuration := portCacheDuration cfg;
     cfgMinPort := cfgMinPort cfg; cfgMaxPort := cfgMaxPort cfg;
     cfgNoisyPorts := cfgNoisyPorts cfg; cfgExcludePorts := cfgExcludePorts cfg;
     cfgIgnoreIps := cfgIgnoreIps cfg; cfgKillRoute := cfgKillRoute cfg;
     cfgKillRunCmd := cfgKillRunCmd cfg; cfgKillNotifyUrl := cfgKillNotifyUrl cfg;
     cfgScanTrigger := v |}.

(** [strings.Contains(value, "/")]. *)
Fixpoint has_slash (s : string) : bool :=
  match s with
  | EmptyString => false
  | String c rest => Ascii.eqb c "/" || has_slash rest
  end.

Definition parseIp (env : FileEnv) (lineno : Z) (token value : string)
    : Parsed IPNet :=
  let formalValue := if negb (has_slash value) then value +:+ "/" +:+ itoa 32
                     else value in
  match ParseCIDR env formalValue with
  | None =>
      Fatal "line %d:%s, %s is not a legal CIDR notation ip address:%s"
        [CInt lineno; CStr token; CStr value; CErr "net.ParseCIDR" formalValue]
  | Some ipNet => Value ipNet
  end.

Definition parseFile (env : FileEnv) (lineno : Z) (token value : string)
    : Parsed Writer :=
  if OpenFile_ok env value then Value (FileWriter value)
  else Fatal "line %d:%s, open file %s failed:%s"
         [CInt lineno; CStr token; CStr value; CErr "os.OpenFile" value].

(** [strings.HasPrefix(line, "#")]. *)
Definition is_comment (line : string) : bool :=
  match line with
  | String "#" _ => true
  | _ => false
  end.

(** The body of the read loop of [readConfigFile] for one line. *)
Definition applyLine (env : FileEnv) (lineno : Z) (line : string) (st : Settings)
    : Parsed Settings :=
  if negb (is_comment line) then
    let '(token, value) := parseToken line in
    if String.eqb token "min_port" then
      and_then (parseInt lineno token value)
        (fun v => Value (with_cfg (set_cfgMinPort v) st))
    else if String.eqb token "max_port" then
      and_then (parseInt lineno token value)
        (fun v => Value (with_cfg (set_cfgMaxPort v) st))
    else if String.eqb token "noisy_udp_port" then
      and_then (parseInt lineno token value)
        (fun port => Value (with_cfg (add_cfgNoisyPort port) st))
    else if String.eqb token "exclude_port" then
      and_then (parseInt lineno token value)
        (fun port => Value (with_cfg (add_cfgExcludePort port) st))
    else if String.eqb token "ignore_ip" then
      and_then (parseIp env lineno token value)
        (fun ipNet => Value (with_cfg (add_cfgIgnoreIp ipNet) st))
    else if String.eqb token "kill_route" then
      Value (with_cfg (set_cfgKillRoute value) st)
    else if String.eqb token "kill_run_cmd" then
      Value (with_cfg (set_cfgKillRunCmd value) st)
    else if String.eqb token "kill_notify_url" then
      if negb (url_Parse_ok env value) then
        Fatal "line %d:%s, invalid url:%s" [CInt lineno; CStr token; CStr value]
      else Value (with_cfg (set_cfgKillNotifyUrl value) st)
    else if String.eqb token "scan_trigger" then
      and_then (parseInt lineno token value)
        (fun v => Value (with_cfg (set_cfgScanTrigger v) st))
    else if String.eqb token "alarm_log" then
      and_then (parseFile env lineno token value)
        (fun w => Value (set_alarm_log value w st))
    else if String.eqb token "blocked_log" then
      and_then (parseFile env lineno token value)
        (fun w => Value (set_blocked_log value w st))
    else Value st
  else Value st.

(** The pieces that successive [rd.ReadString('\n')] calls return for a
    file of this content: each line with its line feed, then the rest
    (possibly empty) with which the end of file is reported. *)
Fixpoint lines_of (content : string) : list string :=
  match content with
  | EmptyString => [EmptyString]
  | String c rest =>
      match lines_of rest with
      | [] => [String c EmptyString]
      | l :: ls =>
          if Ascii.eqb c "010" then String c EmptyString :: l :: ls
          else String c l :: ls
      end
  end.

(** The read loop, [lineno] being the number of lines read so far. *)
Fixpoint readLines (env : FileEnv) (lineno : Z) (lines : list string)
    (st : Settings) : Parsed Settings :=
  match lines with
  | [] => Value st
  | line :: rest =>
      let lineno := int_add lineno 1 in
      and_then (applyLine env lineno line st) (readLines env lineno rest)
  end.

(** [content] is what the file holds, or the text of the error of
    [os.Open]. *)
Definition readConfigFile (env : FileEnv) (file : string)
    (content : string + string) (st : Settings) : Parsed Settings :=
  match content with
  | inr err => Fatal "open file %s failed: %s" [CStr file; CStr err]
  | inl text => readLines env 0 (lines_of text) st
  end.

(** The values of the globals before [readConfigFile] runs. *)
Definition defaultSettings (mode : string) (portCacheDuration : Z) : Settings :=
  {| st_cfg := {| mode := mode; portCacheDuration := portCacheDuration;
                  cfgMinPort := 0; cfgMaxPort := 65535;
                  cfgNoisyPorts := ∅; cfgExcludePorts := ∅; cfgIgnoreIps := [];
                  cfgKillRoute := EmptyString; cfgKillRunCmd := EmptyString;
                  cfgKillNotifyUrl := EmptyString; cfgScanTrigger := 0 |};
     cfgAlarmLogPath := EmptyString; cfgAlarmLog := None;
     cfgBlockedLogPath := EmptyString; cfgBlockedLog := None |}.

(** No numeric setting is negative or beyond [int]. *)
Definition settings_in_range (cfg : Config) : Prop :=
  0 <= cfgMinPort cfg <= int_max /\ 0 <= cfgMaxPort cfg <= int_max
  /\ 0 <= cfgScanTrigger cfg <= int_max
  /\ (forall port, is_Some (cfgExcludePorts cfg !! port) -> 0 <= port <= int_max)
  /\ (forall port, is_Some (cfgNoisyPorts cfg !! port) -> 0 <= port <= int_max).

(** A line without effect: a comment, or a line without "=". *)
Definition inert_line (line : string) : Prop :=
  is_comment line = true
  \/ all_chars (fun c => negb (Ascii.eqb c "=")) line = true.

(** Line feed. *)
Definition LF : string := String "010" EmptyString.

(** An environment in which every library and system call succeeds with
    nothing to report but [net.ParseCIDR], which fails. *)
Definition sample_env : FileEnv :=
  {| ParseCIDR := fun _ => None; url_Parse_ok := fun _ => true;
     OpenFile_ok := fun _ => true |}.

(** * Properties *)

(** ** Machine integers and slices *)

Lemma int_wrap_id z : int_min <= z <= int_max -> int_wrap z = z.
Proof.
  unfold int_min, int_max, int_wrap. intros Hz.
  rewrite Z.mod_small; lia.
Qed.

Lemma trigger_size cfg :
  valid_trigger cfg -> int_add (cfgScanTrigger cfg) 1 = cfgScanTrigger cfg + 1.
Proof.
  unfold valid_trigger, int_add, int_max. intros Hv.
  apply int_wrap_id. unfold int_min, int_max. lia.
Qed.

Lemma len_app {A} (l : list A) (x : A) : len (l ++ [x]) = len l + 1.
Proof. unfold len. rewrite length_app. simpl. lia. Qed.

Lemma len_nonneg {A} (l : list A) : 0 <= len l.
Proof. unfold len. lia. Qed.

Lemma has_port_elem port ports : has_port port ports = true <-> port ∈ ports.
Proof.
  induction ports as [|v rest IH]; simpl.
  - split; [discriminate | intros H; inversion H].
  - rewrite elem_of_cons. destruct (Z.eqb_spec v port) as [->|Hne].
    + tauto.
    + rewrite IH. split; [tauto | intros [Heq|Hin]; congruence].
Qed.

Lemma has_port_false port ports : has_port port ports = false <-> port ∉ ports.
Proof.
  rewrite <- has_port_elem. destruct (has_port port ports); split; congruence.
Qed.

(** ** The scan state engine *)

(** With a valid trigger the engine never panics, and is one of three
    cases on the ports already recorded for the source. *)
Lemma checkStateEngine_cases cfg ip port se :
  valid_trigger cfg ->
  checkStateEngine cfg ip port se =
    Some (if cfgScanTrigger cfg + 1 <=? len (ports_of ip se) then (true, se)
          else if has_port port (ports_of ip se) then (false, se)
          else (cfgScanTrigger cfg + 1 <=? len (ports_of ip se) + 1,
                <[ip := ports_of ip se ++ [port]]> se)).
Proof.
  intros Hv. unfold checkStateEngine, ports_of.
  rewrite (trigger_size cfg Hv).
  assert (Hmk : make_empty (cfgScanTrigger cfg + 1) = Some []).
  { unfold make_empty. destruct (Z.ltb_spec (cfgScanTrigger cfg + 1) 0); [|reflexivity].
    unfold valid_trigger in Hv. lia. }
  destruct (se !! ip) as [ports|] eqn:Hlk; simpl; [|rewrite Hmk; simpl].
  - rewrite len_app.
    destruct (cfgScanTrigger cfg + 1 <=? len ports); [reflexivity|].
    destruct (has_port port ports); [reflexivity|].
    destruct (cfgScanTrigger cfg + 1 <=? len ports + 1); reflexivity.
  - change (len (@nil Z)) with 0. change (len [port]) with 1.
    change (0 + 1) with 1.
    destruct (cfgScanTrigger cfg + 1 <=? 0); [reflexivity|].
    destruct (cfgScanTrigger cfg + 1 <=? 1); reflexivity.
Qed.

Lemma ports_of_insert ip ip' ports (se : gmap string (list Z)) :
  ports_of ip' (<[ip := ports]> se) = if decide (ip = ip') then ports else ports_of ip' se.
Proof.
  unfold ports_of. rewrite lookup_insert. destruct (decide (ip = ip')); reflexivity.
Qed.

Lemma engine_inv_empty cfg : engine_inv cfg ∅.
Proof. apply map_Forall_empty. Qed.

Lemma checkStateEngine_inv cfg ip port se :
  valid_trigger cfg -> engine_inv cfg se ->
  exists b se', checkStateEngine cfg ip port se = Some (b, se') /\ engine_inv cfg se'.
Proof.
  intros Hv Hinv. rewrite (checkStateEngine_cases cfg ip port se Hv).
  destruct (Z.leb_spec (cfgScanTrigger cfg + 1) (len (ports_of ip se))) as [Hfull|Hroom];
    [eauto|].
  destruct (has_port port (ports_of ip se)) eqn:Hdup; [eauto|].
  eexists _, _. split; [reflexivity|].
  apply map_Forall_insert_2; [|exact Hinv].
  rewrite len_app. split; [lia|].
  apply NoDup_app. split; [|split].
  - unfold ports_of. destruct (se !! ip) as [ports|] eqn:Hlk; simpl.
    + apply (Hinv ip ports Hlk).
    + constructor.
  - intros x Hx Hx'. apply list_elem_of_singleton in Hx'. subst x.
    apply has_port_false in Hdup. contradiction.
  - apply NoDup_singleton.
Qed.



(** C5.  With a scan trigger of 2, four successive calls for one source
    that is not yet in [stateEngine], with ports 10, 20, 10, 30, leave its
    sequence at [10], [10; 20], [10; 20] (the duplicate changes nothing)
    and [10; 20; 30], of lengths 1, 2, 2 and 3; the first three calls
    return false and only the fourth returns true. *)
Theorem checkStateEngine_scenario cfg ip se :
  cfgScanTrigger cfg = 2 -> se !! ip = None ->
  exists s1 s2 s3 s4,
    checkStateEngine cfg ip 10 se = Some (false, s1)
    /\ checkStateEngine cfg ip 20 s1 = Some (false, s2)
    /\ checkStateEngine cfg ip 10 s2 = Some (false, s3)
    /\ checkStateEngine cfg ip 30 s3 = Some (true, s4)
    /\ ports_of ip s1 = [10] /\ ports_of ip s2 = [10; 20]
    /\ s3 = s2 /\ ports_of ip s4 = [10; 20; 30]
    /\ len (ports_of ip s1) = 1 /\ len (ports_of ip s2) = 2
    /\ len (ports_of ip s3) = 2 /\ len (ports_of ip s4) = 3.
Proof.
  intros HT Hnew.
  assert (Hv : valid_trigger cfg) by (unfold valid_trigger, int_max; lia).
  assert (H0 : ports_of ip se = []) by (unfold ports_of; rewrite Hnew; reflexivity).
  exists (<[ip := [10]]> se), (<[ip := [10; 20]]> (<[ip := [10]]> se)),
    (<[ip := [10; 20]]> (<[ip := [10]]> se)),
    (<[ip := [10; 20; 30]]> (<[ip := [10; 20]]> (<[ip := [10]]> se))).
  rewrite !(checkStateEngine_cases cfg ip _ _ Hv), HT.
  rewrite !ports_of_insert, H0. destruct (decide (ip = ip)); [|congruence].
  repeat split; reflexivity.
Qed.

Lemma checkStateEngine_scenario_witness :
  exists s1 s2 s3 s4,
    checkStateEngine cfg_trigger2 "10.0.0.5" 10 ∅ = Some (false, s1)
    /\ checkStateEngine cfg_trigger2 "10.0.0.5" 20 s1 = Some (false, s2)
    /\ checkStateEngine cfg_trigger2 "10.0.0.5" 10 s2 = Some (false, s3)
    /\ checkStateEngine cfg_trigger2 "10.0.0.5" 30 s3 = Some (true, s4)
    /\ ports_of "10.0.0.5" s1 = [10] /\ ports_of "10.0.0.5" s2 = [10; 20]
    /\ s3 = s2 /\ ports_of "10.0.0.5" s4 = [10; 20; 30]
    /\ len (ports_of "10.0.0.5" s1) = 1 /\ len (ports_of "10.0.0.5" s2) = 2
    /\ len (ports_of "10.0.0.5" s3) = 2 /\ len (ports_of "10.0.0.5" s4) = 3.
Proof.
  apply (checkStateEngine_scenario cfg_trigger2 "10.0.0.5" ∅).
  - reflexivity.
  - reflexivity.
Defined.

(** ** Blocked sources *)

Lemma isBlockedIP_ports cfg ip se :
  valid_trigger cfg ->
  isBlockedIP cfg ip se = (cfgScanTrigger cfg <? len (ports_of ip se)).
Proof.
  intros Hv. unfold isBlockedIP, ports_of. destruct (se !! ip) as [ports|]; simpl.
  - destruct (cfgScanTrigger cfg <? len ports); reflexivity.
  - change (len (@nil Z)) with 0. unfold valid_trigger in Hv.
    destruct (Z.ltb_spec (cfgScanTrigger cfg) 0); [lia | reflexivity].
Qed.

Lemma guardPacket_blocked cfg g addr port now os alarm blockedFormat :
  isBlockedIP cfg (IP_String addr) (stateEngine g) = true ->
  guardPacket cfg g addr port now os alarm blockedFormat = Some (g, []).
Proof.
  intros Hb. unfold guardPacket.
  destruct (isExlcudePort cfg port); [reflexivity|].
  destruct (isIgnoredIP cfg addr); [reflexivity|].
  rewrite Hb. reflexivity.
Qed.

(** C9.  For a source whose stored sequence holds [cfgScanTrigger + 1]
    entries, a direct call of [checkStateEngine] returns true and leaves
    the map as it is, for any port; [isBlockedIP] is true of that source,
    so the loop body ([guardPacket]) stops before the engine and emits
    nothing.  The call that first fills the sequence returns the same
    true: the boolean alone does not tell the two apart. *)
Theorem checkStateEngine_full_returns_true cfg ip port se ports :
  valid_trigger cfg -> se !! ip = Some ports ->
  len ports = cfgScanTrigger cfg + 1 ->
  checkStateEngine cfg ip port se = Some (true, se)
  /\ isBlockedIP cfg ip se = true
  /\ (forall se0,
        len (ports_of ip se0) = cfgScanTrigger cfg -> port ∉ ports_of ip se0 ->
        checkStateEngine cfg ip port se0
        = Some (true, <[ip := ports_of ip se0 ++ [port]]> se0))
  /\ (forall g addr now os alarm blockedFormat,
        stateEngine g = se -> IP_String addr = ip ->
        guardPacket cfg g addr port now os alarm blockedFormat = Some (g, [])).
Proof.
  intros Hv Hlk Hlen.
  assert (Hp : ports_of ip se = ports) by (unfold ports_of; rewrite Hlk; reflexivity).
  assert (Hb : isBlockedIP cfg ip se = true).
  { rewrite (isBlockedIP_ports cfg ip se Hv), Hp. apply Z.ltb_lt. lia. }
  split; [|split; [exact Hb|split]].
  - rewrite (checkStateEngine_cases cfg ip port se Hv), Hp, Hlen.
    rewrite Z.leb_refl. reflexivity.
  - intros se0 Hlen0 Hnew.
    rewrite (checkStateEngine_cases cfg ip port se0 Hv), Hlen0.
    destruct (Z.leb_spec (cfgScanTrigger cfg + 1) (cfgScanTrigger cfg)); [lia|].
    apply has_port_false in Hnew. rewrite Hnew, Z.leb_refl. reflexivity.
  - intros g addr now os alarm blockedFormat Hg Haddr.
    apply guardPacket_blocked. rewrite Hg, Haddr. exact Hb.
Qed.

Lemma checkStateEngine_full_returns_true_witness :
  checkStateEngine cfg_trigger2 "10.0.0.5" 40 {["10.0.0.5" := [10; 20; 30]]}
  = Some (true, {["10.0.0.5" := [10; 20; 30]]})
  /\ isBlockedIP cfg_trigger2 "10.0.0.5" {["10.0.0.5" := [10; 20; 30]]} = true.
Proof.
  destruct (checkStateEngine_full_returns_true cfg_trigger2 "10.0.0.5" 40
              {["10.0.0.5" := [10; 20; 30]]} [10; 20; 30]) as (H1 & H2 & _).
  - unfold valid_trigger, int_max. simpl. lia.
  - reflexivity.
  - reflexivity.
  - split; [exact H1 | exact H2].
Defined.

(** ** Once-only triggering *)



















(** With a scan trigger of 0 the first probe of a source triggers: a NULL
    segment to the free port 9999 is alarmed, logged as blocked and starts
    the reaction; the SYN segment that follows from the same source is
    dropped at [isBlockedIP]. *)
Example first_probe_triggers :
  snd <$> tcpGuard_run cfg_reactions initGlobals zeroTCP
            [ packet (segment_to_9999 Byte.x00) addr_10_0_0_5 1000 os_free;
              packet (segment_to_9999 Byte.x02) addr_10_0_0_5 1001 os_free ]
  = Some [ SysSocket SOCK_STREAM; SysBind 9999; SysClose;
           LogAlarm "attackalert: %s from host: %s to TCP port: %d"
             [AStr "TCP NULL scan"; AStr "10.0.0.5"; AInt 9999];
           LogBlocked "Host: %s Port: %d TCP Blocked" [AStr "10.0.0.5"; AInt 9999];
           GoReaction "10.0.0.5" 9999 ].
Proof. vm_compute. reflexivity. Qed.

(** ** RST and ACK segments *)

Lemma tcpGuard_iter_flag_drop cfg g tcp data addr now o :
  HasFlag (fst (NewTCPHeader data tcp)) RST = true
  \/ HasFlag (fst (NewTCPHeader data tcp)) ACK = true ->
  tcpGuard_iter cfg g tcp (packet data addr now o)
  = Some (g, fst (NewTCPHeader data tcp), []).
Proof.
  intros Hf. unfold tcpGuard_iter, packet. cbn [read].
  destruct Hf as [-> | ->]; [reflexivity|].
  rewrite orb_true_r. reflexivity.
Qed.

Lemma NewTCPHeader_flags data tcp :
  20 <= len data -> tcp_Ctrl (fst (NewTCPHeader data tcp)) = flags_octet data.
Proof.
  intros Hlen. unfold NewTCPHeader.
  destruct (Z.ltb_spec (len data) 20); [lia | reflexivity].
Qed.

(** C6.  A captured TCP segment (20 bytes or more) whose flags octet has
    the RST bit or the ACK bit ends its loop iteration with both maps
    ([checkedPortCache], [stateEngine]) as they were and with no event at
    all: no alarm, no probe, no blocked log, no reaction; whatever its
    ports, its sender and its other flags. *)
Theorem tcpGuard_drops_rst_ack cfg g tcp data addr now o :
  20 <= len data ->
  Z.land (flags_octet data) RST <> 0 \/ Z.land (flags_octet data) ACK <> 0 ->
  exists tcp',
    tcpGuard_iter cfg g tcp (packet data addr now o) = Some (g, tcp', []).
Proof.
  intros Hlen Hf. eexists. apply tcpGuard_iter_flag_drop.
  unfold HasFlag. rewrite (NewTCPHeader_flags data tcp Hlen).
  destruct Hf as [Hf|Hf]; [left | right];
    apply negb_true_iff, Z.eqb_neq; exact Hf.
Qed.

Lemma tcpGuard_drops_rst_ack_witness :
  exists tcp',
    tcpGuard_iter cfg_trigger2 initGlobals zeroTCP
      (packet (segment_to_9999 Byte.x12) addr_10_0_0_5 1000 os_free)
    = Some (initGlobals, tcp', []).
Proof.
  apply (tcpGuard_drops_rst_ack cfg_trigger2 initGlobals zeroTCP
           (segment_to_9999 Byte.x12) addr_10_0_0_5 1000 os_free).
  - vm_compute. discriminate.
  - right. vm_compute. discriminate.
Defined.

(** ** The port cache *)

Lemma smartVerifyPort_bound cfg port os :
  socket_err os = false -> bind_err os = true ->
  smartVerifyPort cfg port os
  = (true, [SysSocket (probe_type cfg); SysBind port; SysClose]).
Proof. intros Hs Hb. unfold smartVerifyPort, probe_type. rewrite Hs, Hb. reflexivity. Qed.


(** Every probe starts with the [socket] system call. *)
Lemma smartVerifyPort_probes cfg port os :
  exists rest, snd (smartVerifyPort cfg port os) = SysSocket (probe_type cfg) :: rest.
Proof.
  unfold smartVerifyPort, probe_type.
  destruct (socket_err os); [|destruct (bind_err os)]; simpl; eauto.
Qed.

(** A lookup that finds no valid entry drops what it found and probes. *)
Lemma smartVerify_live cfg port now os cache :
  0 < portCacheDuration cfg -> no_valid_entry port now cache ->
  smartVerify cfg port now os cache
  = (fst (smartVerifyPort cfg port os),
     (if fst (smartVerifyPort cfg port os)
      then <[port := int_add now (portCacheDuration cfg)]> (delete port cache)
      else delete port cache),
     snd (smartVerifyPort cfg port os)).
Proof.
  intros HD Hstale. unfold smartVerify.
  destruct (Z.leb_spec (portCacheDuration cfg) 0); [lia|].
  destruct (smartVerifyPort cfg port os) as [ok ev]. simpl.
  destruct (cache !! port) as [expire|] eqn:Hlk.
  - specialize (Hstale expire Hlk).
    destruct (Z.ltb_spec now expire); [lia|].
    destruct ok; reflexivity.
  - rewrite (delete_id cache port Hlk). destruct ok; reflexivity.
Qed.

Lemma smartVerify_hit cfg port now os cache expire :
  0 < portCacheDuration cfg -> cache !! port = Some expire -> now < expire ->
  smartVerify cfg port now os cache = (true, cache, []).
Proof.
  intros HD Hlk Hlt. unfold smartVerify.
  destruct (Z.leb_spec (portCacheDuration cfg) 0); [lia|].
  rewrite Hlk. destruct (Z.ltb_spec now expire); [reflexivity | lia].
Qed.

(** C3.  With a positive cache duration D, let [smartVerify] probe [port]
    at time t0 (no valid entry) and find it bound.  It returns true and
    stores the expiry t0 + D.  From then on every lookup at a time before
    t0 + D returns true with the cache unchanged and no system call; a
    lookup at t0 + D or later drops the entry and probes afresh, storing a
    new entry only if that probe is positive.  And whenever [smartVerify]
    answers false, the cache it leaves has no entry for the port. *)
Theorem smartVerify_cache_window cfg port t0 os0 cache0 :
  0 < portCacheDuration cfg ->
  0 <= t0 -> t0 + portCacheDuration cfg <= int_max ->
  no_valid_entry port t0 cache0 ->
  socket_err os0 = false -> bind_err os0 = true ->
  exists cache1,
    smartVerify cfg port t0 os0 cache0
    = (true, cache1, [SysSocket (probe_type cfg); SysBind port; SysClose])
    /\ cache1 !! port = Some (t0 + portCacheDuration cfg)
    /\ (forall t os, t < t0 + portCacheDuration cfg ->
          smartVerify cfg port t os cache1 = (true, cache1, []))
    /\ (forall t os, t0 + portCacheDuration cfg <= t ->
          exists rest,
            smartVerify cfg port t os cache1
            = (fst (smartVerifyPort cfg port os),
               (if fst (smartVerifyPort cfg port os)
                then <[port := int_add t (portCacheDuration cfg)]> (delete port cache1)
                else delete port cache1),
               SysSocket (probe_type cfg) :: rest))
    /\ (forall t os cache,
          fst (fst (smartVerify cfg port t os cache)) = false ->
          snd (fst (smartVerify cfg port t os cache)) !! port = None).
Proof.
  intros HD Ht0 Hmax Hstale Hs Hb.
  assert (Hexp : int_add t0 (portCacheDuration cfg) = t0 + portCacheDuration cfg).
  { apply int_wrap_id. unfold int_min. lia. }
  exists (<[port := t0 + portCacheDuration cfg]> (delete port cache0)).
  split; [|split; [|split; [|split]]].
  - rewrite (smartVerify_live cfg port t0 os0 cache0 HD Hstale).
    rewrite (smartVerifyPort_bound cfg port os0 Hs Hb). simpl. rewrite Hexp. reflexivity.
  - apply lookup_insert_eq.
  - intros t os Ht. eapply smartVerify_hit; [exact HD | apply lookup_insert_eq | exact Ht].
  - intros t os Ht.
    destruct (smartVerifyPort_probes cfg port os) as [rest Hrest].
    exists rest. rewrite <- Hrest. apply smartVerify_live; [exact HD|].
    intros expire Hlk. rewrite lookup_insert_eq in Hlk. injection Hlk as <-. exact Ht.
  - intros t os cache. unfold smartVerify.
    destruct (Z.leb_spec (portCacheDuration cfg) 0); [lia|].
    destruct (smartVerifyPort cfg port os) as [ok ev].
    destruct (cache !! port) as [expire|] eqn:Hlk.
    + destruct (t <? expire); [simpl; discriminate|].
      destruct ok; simpl; [discriminate|]. intros _. apply lookup_delete_eq.
    + destruct ok; simpl; [discriminate|]. intros _. exact Hlk.
Qed.

Lemma smartVerify_cache_window_witness :
  exists cache1,
    smartVerify cfg_trigger2 80 1000 os_bound ∅
    = (true, cache1, [SysSocket (probe_type cfg_trigger2); SysBind 80; SysClose])
    /\ cache1 !! 80 = Some 1060
    /\ smartVerify cfg_trigger2 80 1059 os_free cache1 = (true, cache1, [])
    /\ exists rest,
         smartVerify cfg_trigger2 80 1061 os_free cache1
         = (false, delete 80 cache1, SysSocket (probe_type cfg_trigger2) :: rest).
Proof.
  destruct (smartVerify_cache_window cfg_trigger2 80 1000 os_bound ∅)
    as (cache1 & H1 & H2 & H3 & H4 & _).
  - simpl. lia.
  - lia.
  - unfold int_max. simpl. lia.
  - intros expire Hlk. rewrite lookup_empty in Hlk. discriminate.
  - reflexivity.
  - reflexivity.
  - exists cache1. split; [exact H1|]. split; [exact H2|]. split.
    + apply (H3 1059 os_free). simpl. lia.
    + destruct (H4 1061 os_free) as [rest Hrest]; [simpl; lia|].
      exists rest. exact Hrest.
Defined.

(** ** Reaction dispatch *)

Lemma calls_of_app evs evs' : calls_of (evs ++ evs') = calls_of evs ++ calls_of evs'.
Proof. unfold calls_of. apply List.filter_app. Qed.

Lemma calls_of_on_error err format a : calls_of (on_error err format a) = [].
Proof. destruct err; reflexivity. Qed.

Lemma on_error_logged e format a :
  on_error (Some e) format a = [LogMain false format (a e)].
Proof. reflexivity. Qed.

Lemma on_error_not_fatal err format a exit format' a' :
  In (LogMain exit format' a') (on_error err format a) -> exit = false.
Proof.
  destruct err as [e|]; simpl; [|tauto].
  intros [Heq|[]]. congruence.
Qed.


(** One of the three [if cfg... is not empty] blocks of the goroutine. *)
Lemma reaction_block target call err format (a : string -> list Arg) :
  is_call call = true ->
  let block := if negb (String.eqb target EmptyString) then call :: on_error err format a
               else [] in
  (target <> EmptyString -> In call block)
  /\ calls_of block = (if negb (String.eqb target EmptyString) then [call] else [])
  /\ (forall e, target <> EmptyString -> err = Some e -> In (LogMain false format (a e)) block)
  /\ (forall exit format' a', In (LogMain exit format' a') block -> exit = false).
Proof.
  intros Hcall. cbv zeta.
  destruct (String.eqb_spec target EmptyString) as [->|Hne]; cbn [negb].
  - repeat split; try (intros; simpl in *; tauto); try congruence.
  - split; [intros _; left; reflexivity|]. split; [|split].
    + unfold calls_of. cbn [List.filter]. rewrite Hcall.
      fold (calls_of (on_error err format a)). rewrite calls_of_on_error. reflexivity.
    + intros e _ ->. right. left. reflexivity.
    + intros exit format' a' [Heq|Hin].
      * subst call. discriminate.
      * eapply on_error_not_fatal, Hin.
Qed.

(** C8.  In the goroutine that [runExternalCommand] starts for (ip, port),
    whatever the three external calls return: each configured reaction is
    called with the mode, the ip and the port; the calls made are those of
    a run without any error, so no failure keeps a later reaction from
    being called; a reaction that returns an error gets a log line of its
    own; and every log call has exit = false, so none ends the process.
    The goroutine is started as soon as one reaction is configured. *)
Theorem reactionBody_independent cfg res ip port :
  let evs := reactionBody cfg res ip port in
  (cfgKillRoute cfg <> EmptyString ->
     In (CallRunCmd (cfgKillRoute cfg) (mode cfg) ip port) evs)
  /\ (cfgKillRunCmd cfg <> EmptyString ->
        In (CallRunCmd (cfgKillRunCmd cfg) (mode cfg) ip port) evs)
  /\ (cfgKillNotifyUrl cfg <> EmptyString ->
        In (CallRequestUrl (cfgKillNotifyUrl cfg) (mode cfg) ip port) evs)
  /\ calls_of evs = calls_of (reactionBody cfg no_errors ip port)
  /\ (forall e, cfgKillRoute cfg <> EmptyString -> killRoute_err res = Some e ->
        In (LogMain false "run kill_route:%s, host:%s:%d failed:%s"
              [AStr (cfgKillRoute cfg); AStr ip; AInt port; AStr e]) evs)
  /\ (forall e, cfgKillRunCmd cfg <> EmptyString -> killRunCmd_err res = Some e ->
        In (LogMain false "run kill_run_cmd:%s, host:%s:%d failed:%s"
              [AStr (cfgKillRunCmd cfg); AStr ip; AInt port; AStr e]) evs)
  /\ (forall e, cfgKillNotifyUrl cfg <> EmptyString -> killNotifyUrl_err res = Some e ->
        In (LogMain false "notify kill_notify_url:%s, host:%s:%d failed:%s"
              [AStr (cfgKillNotifyUrl cfg); AStr ip; AInt port; AStr e]) evs)
  /\ (forall exit format a, In (LogMain exit format a) evs -> exit = false)
  /\ (cfgKillRoute cfg <> EmptyString \/ cfgKillRunCmd cfg <> EmptyString \/ cfgKillNotifyUrl cfg <> EmptyString ->
        runExternalCommand cfg ip port = [GoReaction ip port]).
Proof.
  cbv zeta. unfold reactionBody.
  pose proof (fun err => reaction_block (cfgKillRoute cfg)
    (CallRunCmd (cfgKillRoute cfg) (mode cfg) ip port) err
    "run kill_route:%s, host:%s:%d failed:%s"
    (fun e => [AStr (cfgKillRoute cfg); AStr ip; AInt port; AStr e]) eq_refl) as B1.
  pose proof (fun err => reaction_block (cfgKillRunCmd cfg)
    (CallRunCmd (cfgKillRunCmd cfg) (mode cfg) ip port) err
    "run kill_run_cmd:%s, host:%s:%d failed:%s"
    (fun e => [AStr (cfgKillRunCmd cfg); AStr ip; AInt port; AStr e]) eq_refl) as B2.
  pose proof (fun err => reaction_block (cfgKillNotifyUrl cfg)
    (CallRequestUrl (cfgKillNotifyUrl cfg) (mode cfg) ip port) err
    "notify kill_notify_url:%s, host:%s:%d failed:%s"
    (fun e => [AStr (cfgKillNotifyUrl cfg); AStr ip; AInt port; AStr e]) eq_refl) as B3.
  cbv zeta in B1, B2, B3.
  destruct (B1 (killRoute_err res)) as (C1 & F1 & L1 & X1).
  destruct (B2 (killRunCmd_err res)) as (C2 & F2 & L2 & X2).
  destruct (B3 (killNotifyUrl_err res)) as (C3 & F3 & L3 & X3).
  destruct (B1 None) as (_ & G1 & _). destruct (B2 None) as (_ & G2 & _).
  destruct (B3 None) as (_ & G3 & _).
  clear B1 B2 B3.
  rewrite !calls_of_app. cbn [killRoute_err killRunCmd_err killNotifyUrl_err no_errors].
  rewrite F1, F2, F3, G1, G2, G3.
  split; [intros H; rewrite !in_app_iff; auto|].
  split; [intros H; rewrite !in_app_iff; auto|].
  split; [intros H; rewrite !in_app_iff; auto|].
  split; [reflexivity|].
  split; [intros e H He; rewrite !in_app_iff; auto|].
  split; [intros e H He; rewrite !in_app_iff; auto|].
  split; [intros e H He; rewrite !in_app_iff; auto|].
  split.
  - intros exit format a. rewrite !in_app_iff. intros [H|[H|H]]; eauto.
  - unfold runExternalCommand.
    destruct (String.eqb_spec (cfgKillRoute cfg) EmptyString);
      destruct (String.eqb_spec (cfgKillRunCmd cfg) EmptyString);
      destruct (String.eqb_spec (cfgKillNotifyUrl cfg) EmptyString); cbn [andb];
      try reflexivity.
    intros [H|[H|H]]; contradiction.
Qed.

Lemma reactionBody_independent_witness :
  reactionBody cfg_reactions
    {| killRoute_err := Some "exit status 1"; killRunCmd_err := None;
       killNotifyUrl_err := Some "connection refused" |} "10.0.0.5" 9999
  = [ CallRunCmd "/usr/local/bin/kill_route" "tcp" "10.0.0.5" 9999;
      LogMain false "run kill_route:%s, host:%s:%d failed:%s"
        [AStr "/usr/local/bin/kill_route"; AStr "10.0.0.5"; AInt 9999; AStr "exit status 1"];
      CallRunCmd "/usr/local/bin/on_blocked" "tcp" "10.0.0.5" 9999;
      CallRequestUrl "http://127.0.0.1:8080/blocked" "tcp" "10.0.0.5" 9999;
      LogMain false "notify kill_notify_url:%s, host:%s:%d failed:%s"
        [AStr "http://127.0.0.1:8080/blocked"; AStr "10.0.0.5"; AInt 9999;
         AStr "connection refused"] ]
  /\ In (CallRequestUrl "http://127.0.0.1:8080/blocked" "tcp" "10.0.0.5" 9999)
       (reactionBody cfg_reactions
          {| killRoute_err := Some "exit status 1"; killRunCmd_err := None;
             killNotifyUrl_err := Some "connection refused" |} "10.0.0.5" 9999).
Proof.
  split; [reflexivity|].
  destruct (reactionBody_independent cfg_reactions
              {| killRoute_err := Some "exit status 1"; killRunCmd_err := None;
                 killNotifyUrl_err := Some "connection refused" |} "10.0.0.5" 9999)
    as (_ & _ & H & _).
  apply H. discriminate.
Defined.

(** ** A failing [socket] call *)





(** ** Buffers shorter than a header *)







(** ** Classification of the control flags *)

Lemma byte_values_complete f : 0 <= f < 256 -> f ∈ byte_values.
Proof.
  intros Hf. unfold byte_values. apply list_elem_of_In, in_map_iff.
  exists (Z.to_nat f). split; [lia|]. apply in_seq. lia.
Qed.

(** A decidable property checked on the 256 values holds of every byte. *)
Lemma byte_cases (P : Z -> Prop) `{!forall f, Decision (P f)} :
  bool_decide (Forall P byte_values) = true -> forall f, 0 <= f < 256 -> P f.
Proof.
  intros Hall f Hf. apply bool_decide_eq_true_1 in Hall.
  rewrite Forall_forall in Hall. apply Hall, byte_values_complete, Hf.
Qed.

(** The decimal text of an integer determines it. *)
Lemma itoa_inj a b : itoa a = itoa b -> a = b.
Proof.
  unfold itoa. intros Heq.
  assert (Hparse : forall z,
            NilZero.int_of_string (NilZero.string_of_int (Z.to_int z)) = Some (Z.to_int z)).
  { intros z. apply NilZero.isi; destruct z as [|p|p]; simpl; try discriminate;
      intros [= Hnil]; exact (DecimalPos.Unsigned.to_uint_nonnil p Hnil). }
  apply DecimalZ.to_int_inj.
  pose proof (Hparse a) as Ha. rewrite Heq, Hparse in Ha. congruence.
Qed.

Lemma string_app_empty_r (s : string) : s +:+ EmptyString = s.
Proof.
  induction s as [|c s IH]; [reflexivity|].
  change (String c (s +:+ EmptyString) = String c s). f_equal. exact IH.
Qed.

Lemma unknown_label_text f :
  unknown_label f
  = "Unknown Type: TCP Packet Flags(FIN,SYN,RST,PSH,ACK,URG): " +:+ itoa f.
Proof.
  unfold unknown_label, tcpPacketTypeUnknown.
  rewrite <- (string_app_empty_r (itoa f)). reflexivity.
Qed.

Lemma unknown_label_inj f g : unknown_label f = unknown_label g -> f = g.
Proof.
  rewrite !unknown_label_text. intros H.
  apply itoa_inj. exact (String.app_inj _ _ _ H).
Qed.

(** C7.  For every flag byte, [reportPacketType] returns the label of the
    spec's classification, checks taken in order: the Null text exactly
    when the byte is 0; otherwise the Xmas text exactly when FIN, URG and
    PSH are all set, whatever the other bits; otherwise the Syn text
    exactly when the byte equals SYN; otherwise the Unknown text, which
    carries the byte in decimal and so tells any two bytes apart. *)
Theorem reportPacketType_classifies f :
  0 <= f < 256 ->
  reportPacketType f = label (classify f)
  /\ (reportPacketType f = tcpPacketTypeNull <-> f = 0)
  /\ (reportPacketType f = tcpPacketTypeXMAS <-> f <> 0 /\ all_set f)
  /\ (reportPacketType f = tcpPacketTypeSYN <-> f <> 0 /\ ~ all_set f /\ f = SYN)
  /\ (reportPacketType f = unknown_label f <-> f <> 0 /\ ~ all_set f /\ f <> SYN)
  /\ (forall g, unknown_label f = unknown_label g -> f = g).
Proof.
  intros Hf.
  assert (Hlabels :
    reportPacketType f = label (classify f)
    /\ (reportPacketType f = tcpPacketTypeNull <-> f = 0)
    /\ (reportPacketType f = tcpPacketTypeXMAS <-> f <> 0 /\ all_set f)
    /\ (reportPacketType f = tcpPacketTypeSYN <-> f <> 0 /\ ~ all_set f /\ f = SYN)
    /\ (reportPacketType f = unknown_label f <-> f <> 0 /\ ~ all_set f /\ f <> SYN)).
  { revert f Hf.
    apply (byte_cases (fun f =>
      reportPacketType f = label (classify f)
      /\ (reportPacketType f = tcpPacketTypeNull <-> f = 0)
      /\ (reportPacketType f = tcpPacketTypeXMAS <-> f <> 0 /\ all_set f)
      /\ (reportPacketType f = tcpPacketTypeSYN <-> f <> 0 /\ ~ all_set f /\ f = SYN)
      /\ (reportPacketType f = unknown_label f <-> f <> 0 /\ ~ all_set f /\ f <> SYN))).
    vm_compute. reflexivity. }
  destruct Hlabels as (H1 & H2 & H3 & H4 & H5).
  repeat (split; [assumption|]).
  intros g. apply unknown_label_inj.
Qed.

Lemma reportPacketType_classifies_witness :
  reportPacketType 41 = tcpPacketTypeXMAS
  /\ reportPacketType 18 = unknown_label 18.
Proof.
  split.
  - destruct (reportPacketType_classifies 41) as (_ & _ & H & _); [lia|].
    apply H. vm_compute. repeat split; discriminate.
  - destruct (reportPacketType_classifies 18) as (_ & _ & _ & _ & H & _); [lia|].
    apply H. vm_compute. split; [discriminate|]. split; [|discriminate].
    intros (H1 & _). apply H1. reflexivity.
Defined.

(** * Further properties of the guard *)

(** ** Filters *)

Lemma isExlcudePort_true cfg port :
  isExlcudePort cfg port = true <-> excluded cfg port.
Proof.
  unfold isExlcudePort, excluded.
  destruct (Z.ltb_spec port (cfgMinPort cfg)); simpl; [tauto|].
  destruct (Z.ltb_spec (cfgMaxPort cfg) port); simpl; [tauto|].
  destruct (cfgExcludePorts cfg !! port) as [b|]; split; intros H';
    try reflexivity; try discriminate.
  - right. right. eauto.
  - destruct H' as [?|[?|[? ?]]]; [lia | lia | discriminate].
Qed.

Lemma isIgnoredIP_true cfg ip : isIgnoredIP cfg ip = true <-> ignored cfg ip.
Proof.
  unfold isIgnoredIP, ignored.
  destruct (cfgIgnoreIps cfg) as [|n nets] eqn:Hnets.
  - split; [discriminate | intros (n & [] & _)].
  - rewrite existsb_exists. reflexivity.
Qed.

Lemma NewTCPHeader_dest data tcp :
  20 <= len data -> tcp_Destination (fst (NewTCPHeader data tcp)) = be16 data 2.
Proof.
  intros Hlen. unfold NewTCPHeader.
  destruct (Z.ltb_spec (len data) 20); [lia | reflexivity].
Qed.

Lemma NewUDPHeader_dest data udp :
  8 <= len data -> udp_Destination (fst (NewUDPHeader data udp)) = be16 data 2.
Proof.
  intros Hlen. unfold NewUDPHeader.
  destruct (Z.ltb_spec (len data) 8); [lia | reflexivity].
Qed.

Lemma guardPacket_excluded cfg g addr port now o alarm blockedFormat :
  isExlcudePort cfg port = true ->
  guardPacket cfg g addr port now o alarm blockedFormat = Some (g, []).
Proof. intros H. unfold guardPacket. rewrite H. reflexivity. Qed.

Lemma guardPacket_ignored cfg g addr port now o alarm blockedFormat :
  isIgnoredIP cfg addr = true ->
  guardPacket cfg g addr port now o alarm blockedFormat = Some (g, []).
Proof.
  intros H. unfold guardPacket. rewrite H.
  destruct (isExlcudePort cfg port); reflexivity.
Qed.

(** What both loops do once the shared body returns [(g, [])]. *)
Lemma tcpGuard_iter_dropped cfg g tcp data addr now o :
  (forall alarm blockedFormat,
     guardPacket cfg g addr (tcp_Destination (fst (NewTCPHeader data tcp))) now o
       alarm blockedFormat = Some (g, [])) ->
  tcpGuard_iter cfg g tcp (packet data addr now o)
  = Some (g, fst (NewTCPHeader data tcp), []).
Proof.
  intros Hdrop. unfold tcpGuard_iter, packet. cbn [read clock os].
  destruct (HasFlag _ RST || HasFlag _ ACK); [reflexivity|].
  rewrite Hdrop. reflexivity.
Qed.

Lemma udpGuard_iter_dropped cfg g udp data addr now o :
  (forall alarm blockedFormat,
     guardPacket cfg g addr (udp_Destination (fst (NewUDPHeader data udp))) now o
       alarm blockedFormat = Some (g, [])) ->
  exists evs,
    udpGuard_iter cfg g udp (packet data addr now o)
    = Some (g, fst (NewUDPHeader data udp), evs)
    /\ forall e, In e evs -> exists format a, e = LogPrintf format a.
Proof.
  intros Hdrop. unfold udpGuard_iter, packet. cbn [read clock os].
  destruct (cfgNoisyPorts cfg !! _).
  - exists []. split; [reflexivity | intros e []].
  - rewrite Hdrop. eexists. split; [reflexivity|].
    intros e [<-|[]]. eauto.
Qed.

(** X1.  A packet whose destination port is below [cfgMinPort], above
    [cfgMaxPort] or in [cfgExcludePorts] leaves both maps as they are; the
    TCP loop emits nothing for it and the UDP loop at most its
    [log.Printf] line: no probe, no alarm, no blocked log, no reaction. *)
Theorem guard_drops_excluded_port cfg g data addr now o :
  excluded cfg (be16 data 2) ->
  (forall tcp, 20 <= len data ->
     exists tcp', tcpGuard_iter cfg g tcp (packet data addr now o) = Some (g, tcp', []))
  /\ (forall udp, 8 <= len data ->
        exists udp' evs,
          udpGuard_iter cfg g udp (packet data addr now o) = Some (g, udp', evs)
          /\ forall e, In e evs -> exists format a, e = LogPrintf format a).
Proof.
  intros Hex. apply isExlcudePort_true in Hex. split.
  - intros tcp Hlen. eexists. apply tcpGuard_iter_dropped.
    intros alarm blockedFormat. apply guardPacket_excluded.
    rewrite (NewTCPHeader_dest data tcp Hlen). exact Hex.
  - intros udp Hlen.
    destruct (udpGuard_iter_dropped cfg g udp data addr now o) as (evs & Hrun & Hev).
    + intros alarm blockedFormat. apply guardPacket_excluded.
      rewrite (NewUDPHeader_dest data udp Hlen). exact Hex.
    + eauto.
Qed.

Lemma guard_drops_excluded_port_witness :
  exists tcp',
    tcpGuard_iter
      {| mode := "tcp"; portCacheDuration := 60; cfgMinPort := 0; cfgMaxPort := 1024;
         cfgNoisyPorts := ∅; cfgExcludePorts := ∅; cfgIgnoreIps := [];
         cfgKillRoute := EmptyString; cfgKillRunCmd := EmptyString;
         cfgKillNotifyUrl := EmptyString; cfgScanTrigger := 2 |}
      initGlobals zeroTCP (packet (segment_to_9999 Byte.x02) addr_10_0_0_5 1000 os_free)
    = Some (initGlobals, tcp', []).
Proof.
  refine (proj1 (guard_drops_excluded_port _ initGlobals (segment_to_9999 Byte.x02)
                   addr_10_0_0_5 1000 os_free _) zeroTCP _).
  - right. left. vm_compute. reflexivity.
  - vm_compute. discriminate.
Defined.

(** X2.  A packet from a source that some network of [cfgIgnoreIps]
    contains leaves both maps as they are, whatever its bytes; the TCP loop
    emits nothing for it and the UDP loop at most its [log.Printf] line. *)
Theorem guard_drops_ignored_source cfg g data addr now o :
  ignored cfg addr ->
  (forall tcp,
     exists tcp', tcpGuard_iter cfg g tcp (packet data addr now o) = Some (g, tcp', []))
  /\ (forall udp,
        exists udp' evs,
          udpGuard_iter cfg g udp (packet data addr now o) = Some (g, udp', evs)
          /\ forall e, In e evs -> exists format a, e = LogPrintf format a).
Proof.
  intros Hig. apply isIgnoredIP_true in Hig. split.
  - intros tcp. eexists. apply tcpGuard_iter_dropped.
    intros alarm blockedFormat. apply guardPacket_ignored, Hig.
  - intros udp.
    destruct (udpGuard_iter_dropped cfg g udp data addr now o) as (evs & Hrun & Hev).
    + intros alarm blockedFormat. apply guardPacket_ignored, Hig.
    + eauto.
Qed.

Lemma guard_drops_ignored_source_witness :
  exists tcp',
    tcpGuard_iter
      {| mode := "tcp"; portCacheDuration := 60; cfgMinPort := 0; cfgMaxPort := 65535;
         cfgNoisyPorts := ∅; cfgExcludePorts := ∅;
         cfgIgnoreIps :=
           [ {| net_IP := mkIP Byte.x0a Byte.x00 Byte.x00 Byte.x00;
                net_Mask := mkIP Byte.xff Byte.x00 Byte.x00 Byte.x00 |} ];
         cfgKillRoute := EmptyString; cfgKillRunCmd := EmptyString;
         cfgKillNotifyUrl := EmptyString; cfgScanTrigger := 2 |}
      initGlobals zeroTCP (packet (segment_to_9999 Byte.x02) addr_10_0_0_5 1000 os_free)
    = Some (initGlobals, tcp', []).
Proof.
  refine (proj1 (guard_drops_ignored_source _ initGlobals (segment_to_9999 Byte.x02)
                   addr_10_0_0_5 1000 os_free _) zeroTCP).
  eexists. split; [left; reflexivity | vm_compute; reflexivity].
Defined.

(** X3.  A UDP datagram to a port of [cfgNoisyPorts] ends its iteration at
    once: both maps unchanged and no event, not even the [log.Printf]
    line. *)
Theorem udpGuard_drops_noisy_port cfg g udp data addr now o :
  8 <= len data -> is_Some (cfgNoisyPorts cfg !! be16 data 2) ->
  exists udp', udpGuard_iter cfg g udp (packet data addr now o) = Some (g, udp', []).
Proof.
  intros Hlen [b Hb]. unfold udpGuard_iter, packet. cbn [read clock os].
  rewrite (NewUDPHeader_dest data udp Hlen), Hb. eauto.
Qed.

Lemma udpGuard_drops_noisy_port_witness :
  exists udp',
    udpGuard_iter
      {| mode := "udp"; portCacheDuration := 60; cfgMinPort := 0; cfgMaxPort := 65535;
         cfgNoisyPorts := {[ 9999 := true ]}; cfgExcludePorts := ∅; cfgIgnoreIps := [];
         cfgKillRoute := EmptyString; cfgKillRunCmd := EmptyString;
         cfgKillNotifyUrl := EmptyString; cfgScanTrigger := 2 |}
      initGlobals zeroUDP (packet datagram_to_9999 addr_10_0_0_5 1000 os_free)
    = Some (initGlobals, udp', []).
Proof.
  apply udpGuard_drops_noisy_port.
  - vm_compute. discriminate.
  - exists true. vm_compute. reflexivity.
Defined.

(** ** What one packet can change *)

(** The shared loop body either drops the packet at a filter, or probes
    and finds the port in use, or alarms and calls the engine. *)
Lemma guardPacket_inv cfg g addr port now o alarm blockedFormat g' evs :
  guardPacket cfg g addr port now o alarm blockedFormat = Some (g', evs) ->
  (g' = g /\ evs = [])
  \/ (isExlcudePort cfg port = false /\ isIgnoredIP cfg addr = false
      /\ isBlockedIP cfg (IP_String addr) (stateEngine g) = false
      /\ exists inUse cache ev,
           smartVerify cfg port now o (checkedPortCache g) = (inUse, cache, ev)
           /\ checkedPortCache g' = cache
           /\ ((inUse = true /\ stateEngine g' = stateEngine g /\ evs = ev)
               \/ (inUse = false
                   /\ exists trigger,
                        checkStateEngine cfg (IP_String addr) port (stateEngine g)
                        = Some (trigger, stateEngine g')
                        /\ evs = ev ++ alarm
                                 :: (if trigger
                                     then LogBlocked blockedFormat
                                            [AStr (IP_String addr); AInt port]
                                          :: runExternalCommand cfg (IP_String addr) port
                                     else [])))).
Proof.
  unfold guardPacket.
  destruct (isExlcudePort cfg port); [intros [= <- <-]; auto|].
  destruct (isIgnoredIP cfg addr); [intros [= <- <-]; auto|].
  destruct (isBlockedIP cfg (IP_String addr) (stateEngine g)); [intros [= <- <-]; auto|].
  destruct (smartVerify cfg port now o (checkedPortCache g)) as [[inUse cache] ev].
  cbn [stateEngine]. intros H. right. repeat (split; [reflexivity|]).
  exists inUse, cache, ev. split; [reflexivity|].
  destruct inUse.
  - injection H as <- <-. split; [reflexivity|]. left. auto.
  - destruct (checkStateEngine cfg (IP_String addr) port (stateEngine g))
      as [[trigger engine]|]; [|discriminate].
    destruct trigger; injection H as <- <-; (split; [reflexivity|]);
      right; (split; [reflexivity|]); eexists; (split; [reflexivity|]); reflexivity.
Qed.

Lemma checkStateEngine_result cfg ip port se b se' :
  checkStateEngine cfg ip port se = Some (b, se') ->
  se' = se
  \/ (se' = <[ip := ports_of ip se ++ [port]]> se /\ (port ∉ ports_of ip se)
      /\ len (ports_of ip se) < int_add (cfgScanTrigger cfg) 1).
Proof.
  unfold checkStateEngine, ports_of.
  destruct (se !! ip) as [ports|]; simpl.
  - destruct (Z.leb_spec (int_add (cfgScanTrigger cfg) 1) (len ports));
      [intros [= <- <-]; auto|].
    destruct (has_port port ports) eqn:Hdup; [intros [= <- <-]; auto|].
    apply has_port_false in Hdup.
    destruct (_ <=? _); intros [= <- <-]; auto.
  - unfold make_empty. destruct (_ <? 0); [discriminate|].
    change (len (@nil Z)) with 0.
    destruct (Z.leb_spec (int_add (cfgScanTrigger cfg) 1) 0); [intros [= <- <-]; auto|].
    simpl. destruct (_ <=? _); intros [= <- <-]; right;
      (split; [reflexivity | split; [apply not_elem_of_nil | assumption]]).
Qed.

(** A property of the two maps that every pass through the shared loop
    body establishes, and that chains, holds along every run. *)
Section GuardLift.
Context (cfg : Config) (R : list string -> Globals -> Globals -> Prop).
Hypothesis R_refl : forall l g, R l g g.
Hypothesis R_trans : forall l1 l2 g1 g2 g3,
  R l1 g1 g2 -> R l2 g2 g3 -> R (l1 ++ l2) g1 g3.
Hypothesis R_packet : forall g addr port now o alarm blockedFormat g' evs,
  guardPacket cfg g addr port now o alarm blockedFormat = Some (g', evs) ->
  R [IP_String addr] g g'.

Lemma tcpGuard_iter_lift g tcp i g' tcp' evs :
  tcpGuard_iter cfg g tcp i = Some (g', tcp', evs) -> R (sender i) g g'.
Proof.
  unfold tcpGuard_iter, sender. destruct (read i) as [err|data remoteAddr].
  - intros [= <- _ _]. apply R_refl.
  - destruct (HasFlag _ RST || HasFlag _ ACK); [intros [= <- _ _]; apply R_refl|].
    destruct (guardPacket _ _ _ _ _ _ _ _) as [[g1 ev1]|] eqn:Hg; [|discriminate].
    intros [= <- _ _]. eapply R_packet, Hg.
Qed.

Lemma udpGuard_iter_lift g udp i g' udp' evs :
  udpGuard_iter cfg g udp i = Some (g', udp', evs) -> R (sender i) g g'.
Proof.
  unfold udpGuard_iter, sender. destruct (read i) as [err|data remoteAddr].
  - intros [= <- _ _]. apply R_refl.
  - destruct (cfgNoisyPorts cfg !! _); [intros [= <- _ _]; apply R_refl|].
    destruct (guardPacket _ _ _ _ _ _ _ _) as [[g1 ev1]|] eqn:Hg; [|discriminate].
    intros [= <- _ _]. eapply R_packet, Hg.
Qed.

Lemma tcpGuard_run_lift inputs : forall g tcp g' tcp' evs,
  tcpGuard_run cfg g tcp inputs = Some (g', tcp', evs) -> R (senders inputs) g g'.
Proof.
  induction inputs as [|i rest IH]; intros g tcp g' tcp' evs; simpl.
  - intros [= <- _ _]. apply R_refl.
  - destruct (tcpGuard_iter cfg g tcp i) as [[[g1 tcp1] ev1]|] eqn:Hi; [|discriminate].
    destruct (tcpGuard_run cfg g1 tcp1 rest) as [[[g2 tcp2] ev2]|] eqn:Hr; [|discriminate].
    intros [= <- _ _]. eapply R_trans; [eapply tcpGuard_iter_lift, Hi | eapply IH, Hr].
Qed.

Lemma udpGuard_run_lift inputs : forall g udp g' udp' evs,
  udpGuard_run cfg g udp inputs = Some (g', udp', evs) -> R (senders inputs) g g'.
Proof.
  induction inputs as [|i rest IH]; intros g udp g' udp' evs; simpl.
  - intros [= <- _ _]. apply R_refl.
  - destruct (udpGuard_iter cfg g udp i) as [[[g1 udp1] ev1]|] eqn:Hi; [|discriminate].
    destruct (udpGuard_run cfg g1 udp1 rest) as [[[g2 udp2] ev2]|] eqn:Hr; [|discriminate].
    intros [= <- _ _]. eapply R_trans; [eapply udpGuard_iter_lift, Hi | eapply IH, Hr].
Qed.
End GuardLift.

Lemma guardPacket_engine cfg g addr port now o alarm blockedFormat g' evs :
  guardPacket cfg g addr port now o alarm blockedFormat = Some (g', evs) ->
  stateEngine g' = stateEngine g
  \/ (stateEngine g'
      = <[IP_String addr := ports_of (IP_String addr) (stateEngine g) ++ [port]]> (stateEngine g)
      /\ (port ∉ ports_of (IP_String addr) (stateEngine g))
      /\ len (ports_of (IP_String addr) (stateEngine g)) < int_add (cfgScanTrigger cfg) 1).
Proof.
  intros H. apply guardPacket_inv in H.
  destruct H as [[-> _]|(_ & _ & _ & inUse & cache & ev & _ & _ & [(_ & -> & _)|(_ & b & Hc & _)])];
    [auto | auto |].
  apply checkStateEngine_result in Hc. exact Hc.
Qed.

(** ** Sequences only grow *)

Lemma grows_refl se : grows se se.
Proof. intros ip. reflexivity. Qed.

Lemma grows_trans se1 se2 se3 : grows se1 se2 -> grows se2 se3 -> grows se1 se3.
Proof. intros H1 H2 ip. etransitivity; [apply H1 | apply H2]. Qed.

Lemma grows_insert ip port (se : gmap string (list Z)) :
  grows se (<[ip := ports_of ip se ++ [port]]> se).
Proof.
  intros ip'. rewrite ports_of_insert. destruct (decide (ip = ip')) as [<-|_].
  - apply prefix_app_r. reflexivity.
  - reflexivity.
Qed.

(** X4.  Along any run of either loop, from any state, the port sequence
    stored for a source is only ever extended at its end: what was recorded
    stays recorded, in the same order (no entry is removed, reordered or
    expired). *)
Theorem guard_run_sequences_grow cfg g inputs :
  (forall tcp g' tcp' evs,
     tcpGuard_run cfg g tcp inputs = Some (g', tcp', evs) ->
     grows (stateEngine g) (stateEngine g'))
  /\ (forall udp g' udp' evs,
        udpGuard_run cfg g udp inputs = Some (g', udp', evs) ->
        grows (stateEngine g) (stateEngine g')).
Proof.
  assert (Hpacket : forall g addr port now o alarm blockedFormat g' evs,
            guardPacket cfg g addr port now o alarm blockedFormat = Some (g', evs) ->
            grows (stateEngine g) (stateEngine g')).
  { intros g0 addr port now o alarm blockedFormat g' evs H.
    apply guardPacket_engine in H. destruct H as [->|(-> & _)].
    - apply grows_refl.
    - apply grows_insert. }
  split.
  - intros tcp g' tcp' evs H.
    apply (tcpGuard_run_lift cfg (fun _ g1 g2 => grows (stateEngine g1) (stateEngine g2)))
      in H; eauto using grows_refl, grows_trans.
  - intros udp g' udp' evs H.
    apply (udpGuard_run_lift cfg (fun _ g1 g2 => grows (stateEngine g1) (stateEngine g2)))
      in H; eauto using grows_refl, grows_trans.
Qed.

Lemma guard_run_sequences_grow_witness :
  exists g' tcp' evs,
    tcpGuard_run cfg_trigger2
      {| checkedPortCache := ∅; stateEngine := {[ "10.0.0.5" := [10; 20] ]} |} zeroTCP
      [ packet (segment_to_9999 Byte.x02) addr_10_0_0_5 1000 os_free ]
    = Some (g', tcp', evs)
    /\ [10; 20] `prefix_of` (ports_of "10.0.0.5" (stateEngine g')).
Proof.
  destruct (tcpGuard_run cfg_trigger2
              {| checkedPortCache := ∅; stateEngine := {[ "10.0.0.5" := [10; 20] ]} |} zeroTCP
              [ packet (segment_to_9999 Byte.x02) addr_10_0_0_5 1000 os_free ])
    as [[[g' tcp'] evs]|] eqn:Hrun; [|vm_compute in Hrun; discriminate].
  exists g', tcp', evs. split; [reflexivity|].
  exact (proj1 (guard_run_sequences_grow cfg_trigger2 _ _) zeroTCP g' tcp' evs Hrun "10.0.0.5").
Defined.

(** ** The invariant of the scan state along a run *)

(** X5.  Under a valid trigger, a run of either loop keeps the invariant
    of [stateEngine]: if every stored sequence has at most
    [cfgScanTrigger + 1] entries and no port twice before the run (as in
    the empty map of [init]), so it is after it. *)
Theorem guard_run_keeps_invariant cfg g inputs :
  valid_trigger cfg -> engine_inv cfg (stateEngine g) ->
  (forall tcp g' tcp' evs,
     tcpGuard_run cfg g tcp inputs = Some (g', tcp', evs) ->
     engine_inv cfg (stateEngine g'))
  /\ (forall udp g' udp' evs,
        udpGuard_run cfg g udp inputs = Some (g', udp', evs) ->
        engine_inv cfg (stateEngine g')).
Proof.
  intros Hv Hinv.
  assert (Hpacket : forall g addr port now o alarm blockedFormat g' evs,
            guardPacket cfg g addr port now o alarm blockedFormat = Some (g', evs) ->
            engine_inv cfg (stateEngine g) -> engine_inv cfg (stateEngine g')).
  { intros g0 addr port now o alarm blockedFormat g' evs H Hi.
    apply guardPacket_inv in H.
    destruct H as [[-> _]|(_ & _ & _ & inUse & cache & ev & _ & _
                           & [(_ & -> & _)|(_ & b & Hc & _)])]; [assumption..|].
    destruct (checkStateEngine_inv cfg (IP_String addr) port (stateEngine g0) Hv Hi)
      as (b' & se' & Hc' & Hinv').
    rewrite Hc in Hc'. injection Hc' as _ <-. exact Hinv'. }
  split.
  - intros tcp g' tcp' evs H.
    apply (tcpGuard_run_lift cfg
             (fun _ g1 g2 => engine_inv cfg (stateEngine g1) -> engine_inv cfg (stateEngine g2)))
      in H; eauto.
  - intros udp g' udp' evs H.
    apply (udpGuard_run_lift cfg
             (fun _ g1 g2 => engine_inv cfg (stateEngine g1) -> engine_inv cfg (stateEngine g2)))
      in H; eauto.
Qed.

Lemma guard_run_keeps_invariant_witness :
  exists g' tcp' evs,
    tcpGuard_run cfg_trigger2 initGlobals zeroTCP
      [ packet (segment_to_9999 Byte.x02) addr_10_0_0_5 1000 os_free;
        packet (segment_to_9999 Byte.x00) addr_10_0_0_5 1001 os_free ]
    = Some (g', tcp', evs)
    /\ engine_inv cfg_trigger2 (stateEngine g').
Proof.
  destruct (tcpGuard_run cfg_trigger2 initGlobals zeroTCP
              [ packet (segment_to_9999 Byte.x02) addr_10_0_0_5 1000 os_free;
                packet (segment_to_9999 Byte.x00) addr_10_0_0_5 1001 os_free ])
    as [[[g' tcp'] evs]|] eqn:Hrun; [|vm_compute in Hrun; discriminate].
  exists g', tcp', evs. split; [reflexivity|].
  refine (proj1 (guard_run_keeps_invariant cfg_trigger2 initGlobals _ _ _) zeroTCP g' tcp' evs Hrun).
  - unfold valid_trigger, int_max. simpl. lia.
  - apply map_Forall_empty.
Defined.

(** ** One source does not touch another *)

Lemma until_dot_itoa b s :
  until_dot (itoa (byteZ b) +:+ "." +:+ s) = (itoa (byteZ b), s).
Proof. destruct b; reflexivity. Qed.

Lemma byteZ_inj a b : byteZ a = byteZ b -> a = b.
Proof.
  unfold byteZ. intros H. apply N2Z.inj in H.
  pose proof (Byte.of_to_N a) as Ha. rewrite H, Byte.of_to_N in Ha. congruence.
Qed.

(** Two IPv4 addresses with the same dotted text are the same address. *)
Lemma IP_String_inj a b : IP_String a = IP_String b -> a = b.
Proof.
  destruct a as [a0 a1 a2 a3], b as [b0 b1 b2 b3]. unfold IP_String. cbn [ip0 ip1 ip2 ip3].
  intros H.
  apply (f_equal until_dot) in H. rewrite !until_dot_itoa in H. injection H as H0 H.
  apply (f_equal until_dot) in H. rewrite !until_dot_itoa in H. injection H as H1 H.
  apply (f_equal until_dot) in H. rewrite !until_dot_itoa in H. injection H as H2 H3.
  apply itoa_inj, byteZ_inj in H0, H1, H2, H3. congruence.
Qed.

Lemma same_outside_trans l1 l2 se1 se2 se3 :
  same_outside l1 se1 se2 -> same_outside l2 se2 se3 -> same_outside (l1 ++ l2) se1 se3.
Proof.
  intros H1 H2 ip Hnot. rewrite in_app_iff in Hnot.
  rewrite H2, H1; tauto.
Qed.

(** X6.  A run of either loop changes the stored sequence of a source only
    if a packet of that very address is among its inputs: the scan state,
    and with it the blocked status, of every other IPv4 address is
    untouched.  (Distinct addresses have distinct keys.) *)
Theorem guard_run_other_sources_untouched cfg g inputs addr :
  (forall i data remoteAddr, In i inputs -> read i = ReadOk data remoteAddr ->
     remoteAddr <> addr) ->
  (forall tcp g' tcp' evs,
     tcpGuard_run cfg g tcp inputs = Some (g', tcp', evs) ->
     stateEngine g' !! IP_String addr = stateEngine g !! IP_String addr
     /\ isBlockedIP cfg (IP_String addr) (stateEngine g')
        = isBlockedIP cfg (IP_String addr) (stateEngine g))
  /\ (forall udp g' udp' evs,
        udpGuard_run cfg g udp inputs = Some (g', udp', evs) ->
        stateEngine g' !! IP_String addr = stateEngine g !! IP_String addr
        /\ isBlockedIP cfg (IP_String addr) (stateEngine g')
           = isBlockedIP cfg (IP_String addr) (stateEngine g)).
Proof.
  intros Hother.
  assert (Hnot : ~ In (IP_String addr) (senders inputs)).
  { unfold senders. rewrite in_flat_map. intros (i & Hi & Hin).
    unfold sender in Hin. destruct (read i) as [err|data remoteAddr] eqn:Hread; [destruct Hin|].
    destruct Hin as [Heq|[]]. apply IP_String_inj in Heq.
    exact (Hother i data remoteAddr Hi Hread Heq). }
  assert (Hpacket : forall g addr port now o alarm blockedFormat g' evs,
            guardPacket cfg g addr port now o alarm blockedFormat = Some (g', evs) ->
            same_outside [IP_String addr] (stateEngine g) (stateEngine g')).
  { intros g0 addr0 port now o alarm blockedFormat g' evs H ip Hip.
    apply guardPacket_engine in H. destruct H as [->|(-> & _)]; [reflexivity|].
    apply lookup_insert_ne. intros Heq. apply Hip. left. exact Heq. }
  assert (Hlookup : forall se', same_outside (senders inputs) (stateEngine g) se' ->
            se' !! IP_String addr = stateEngine g !! IP_String addr
            /\ isBlockedIP cfg (IP_String addr) se'
               = isBlockedIP cfg (IP_String addr) (stateEngine g)).
  { intros se' Hs. specialize (Hs _ Hnot). split; [exact Hs|].
    unfold isBlockedIP. rewrite Hs. reflexivity. }
  split.
  - intros tcp g' tcp' evs H. apply Hlookup.
    apply (tcpGuard_run_lift cfg
             (fun l g1 g2 => same_outside l (stateEngine g1) (stateEngine g2))) in H;
      eauto using same_outside_trans.
    intros l g0 ip _. reflexivity.
  - intros udp g' udp' evs H. apply Hlookup.
    apply (udpGuard_run_lift cfg
             (fun l g1 g2 => same_outside l (stateEngine g1) (stateEngine g2))) in H;
      eauto using same_outside_trans.
    intros l g0 ip _. reflexivity.
Qed.

Lemma guard_run_other_sources_untouched_witness :
  exists g' tcp' evs,
    tcpGuard_run cfg_trigger2 initGlobals zeroTCP
      [ packet (segment_to_9999 Byte.x02) addr_10_0_0_5 1000 os_free ]
    = Some (g', tcp', evs)
    /\ stateEngine g' !! IP_String (mkIP Byte.x0a Byte.x00 Byte.x00 Byte.x07)
       = stateEngine initGlobals !! IP_String (mkIP Byte.x0a Byte.x00 Byte.x00 Byte.x07).
Proof.
  destruct (tcpGuard_run cfg_trigger2 initGlobals zeroTCP
              [ packet (segment_to_9999 Byte.x02) addr_10_0_0_5 1000 os_free ])
    as [[[g' tcp'] evs]|] eqn:Hrun; [|vm_compute in Hrun; discriminate].
  exists g', tcp', evs. split; [reflexivity|].
  refine (proj1 (proj1 (guard_run_other_sources_untouched cfg_trigger2 initGlobals _
                          (mkIP Byte.x0a Byte.x00 Byte.x00 Byte.x07) _)
                   zeroTCP g' tcp' evs Hrun)).
  intros i data remoteAddr [<-|[]] [= _ <-]. discriminate.
Defined.

(** ** A blocked source *)

(** X7.  Once a source is blocked, nothing it sends has any effect: a run
    of packets that all come from it, whatever their bytes, the clock and
    the system's answers, leaves both maps as they are; the TCP loop emits
    no event at all and the UDP loop nothing but [log.Printf] lines. *)
Theorem blocked_source_is_silenced cfg g addr inputs :
  isBlockedIP cfg (IP_String addr) (stateEngine g) = true ->
  (forall i, In i inputs -> exists data, read i = ReadOk data addr) ->
  (forall tcp, exists tcp', tcpGuard_run cfg g tcp inputs = Some (g, tcp', []))
  /\ (forall udp, exists udp' evs,
        udpGuard_run cfg g udp inputs = Some (g, udp', evs)
        /\ forall e, In e evs -> exists format a, e = LogPrintf format a).
Proof.
  intros Hb. induction inputs as [|i rest IH]; intros Hfrom.
  - split; [intros tcp | intros udp]; simpl; [eauto|].
    exists udp, []. split; [reflexivity | intros e []].
  - destruct (Hfrom i (or_introl eq_refl)) as [data Hread].
    destruct IH as [IHt IHu]; [intros j Hj; apply Hfrom; right; exact Hj|].
    assert (Hi : i = packet data addr (clock i) (os i)).
    { destruct i as [r c s]. simpl in Hread. subst r. reflexivity. }
    split.
    + intros tcp. simpl. rewrite Hi.
      rewrite (tcpGuard_iter_dropped cfg g tcp data addr);
        [|intros; apply guardPacket_blocked, Hb].
      destruct (IHt (fst (NewTCPHeader data tcp))) as [tcp' ->]. eauto.
    + intros udp. simpl. rewrite Hi.
      destruct (udpGuard_iter_dropped cfg g udp data addr (clock i) (os i))
        as (ev1 & -> & Hev1); [intros; apply guardPacket_blocked, Hb|].
      destruct (IHu (fst (NewUDPHeader data udp))) as (udp' & ev2 & -> & Hev2).
      eexists _, _. split; [reflexivity|].
      intros e He. apply in_app_iff in He. destruct He; auto.
Qed.

Lemma blocked_source_is_silenced_witness :
  exists tcp',
    tcpGuard_run cfg_trigger2
      {| checkedPortCache := ∅; stateEngine := {[ "10.0.0.5" := [10; 20; 30] ]} |} zeroTCP
      [ packet (segment_to_9999 Byte.x02) addr_10_0_0_5 1000 os_free;
        packet [] addr_10_0_0_5 1001 os_bound ]
    = Some ({| checkedPortCache := ∅; stateEngine := {[ "10.0.0.5" := [10; 20; 30] ]} |},
            tcp', []).
Proof.
  refine (proj1 (blocked_source_is_silenced cfg_trigger2 _ addr_10_0_0_5 _ _ _) zeroTCP).
  - vm_compute. reflexivity.
  - intros i [<-|[<-|[]]]; eexists; reflexivity.
Defined.

(** ** When the trigger fires *)




(** ** Alarms *)

Lemma smartVerify_events_sys cfg port now o cache e :
  In e (snd (smartVerify cfg port now o cache)) -> is_sys e = true.
Proof.
  assert (Hp : forall e, In e (snd (smartVerifyPort cfg port o)) -> is_sys e = true).
  { unfold smartVerifyPort. destruct (socket_err o); [|destruct (bind_err o)]; simpl;
      intuition (subst; reflexivity). }
  unfold smartVerify.
  destruct (smartVerifyPort cfg port o) as [ok ev]. simpl in Hp.
  destruct (portCacheDuration cfg <=? 0); [apply Hp|].
  destruct (cache !! port) as [expire|]; [destruct (now <? expire); [intros []|]|];
    destruct ok; apply Hp.
Qed.

Lemma runExternalCommand_events cfg ip port e :
  In e (runExternalCommand cfg ip port) -> e = GoReaction ip port.
Proof.
  unfold runExternalCommand. destruct (_ && _); [intros [] | intros [<-|[]]; reflexivity].
Qed.

Lemma checkStateEngine_records cfg ip port se b se' :
  valid_trigger cfg -> isBlockedIP cfg ip se = false ->
  checkStateEngine cfg ip port se = Some (b, se') -> port ∈ ports_of ip se'.
Proof.
  intros Hv Hnb. rewrite (checkStateEngine_cases cfg ip port se Hv).
  rewrite (isBlockedIP_ports cfg ip se Hv) in Hnb. apply Z.ltb_ge in Hnb.
  destruct (Z.leb_spec (cfgScanTrigger cfg + 1) (len (ports_of ip se))); [lia|].
  destruct (has_port port (ports_of ip se)) eqn:Hdup.
  - intros [= _ <-]. apply has_port_elem, Hdup.
  - intros [= _ <-]. rewrite ports_of_insert. destruct (decide (ip = ip)); [|congruence].
    apply elem_of_app. right. apply list_elem_of_singleton. reflexivity.
Qed.

(** X9.  Whenever an iteration of the TCP loop logs an alarm, the segment
    carried neither RST nor ACK, its destination port is not excluded, its
    source is not ignored and was not blocked, the port was found free
    ([smartVerify] answered false), the alarm names the packet type of the
    segment's flags, the source and the port, and after the iteration the
    port is in the source's stored sequence. *)
Theorem tcpGuard_alarm_sound cfg g tcp data addr now o g' tcp' evs format a :
  valid_trigger cfg ->
  tcpGuard_iter cfg g tcp (packet data addr now o) = Some (g', tcp', evs) ->
  In (LogAlarm format a) evs ->
  HasFlag tcp' RST = false /\ HasFlag tcp' ACK = false
  /\ ~ excluded cfg (tcp_Destination tcp') /\ ~ ignored cfg addr
  /\ isBlockedIP cfg (IP_String addr) (stateEngine g) = false
  /\ fst (fst (smartVerify cfg (tcp_Destination tcp') now o (checkedPortCache g))) = false
  /\ a = [AStr (reportPacketType (tcp_Ctrl tcp')); AStr (IP_String addr);
          AInt (tcp_Destination tcp')]
  /\ tcp_Destination tcp' ∈ ports_of (IP_String addr) (stateEngine g').
Proof.
  intros Hv. unfold tcpGuard_iter, packet. cbn [read clock os].
  set (hdr := fst (NewTCPHeader data tcp)).
  destruct (HasFlag hdr RST) eqn:Hrst; [intros [= _ _ <-] []|].
  destruct (HasFlag hdr ACK) eqn:Hack; [intros [= _ _ <-] []|].
  cbn [orb].
  destruct (guardPacket _ _ _ _ _ _ _ _) as [[g1 ev1]|] eqn:Hg; [|discriminate].
  intros [= <- <- <-] Hin.
  apply guardPacket_inv in Hg.
  destruct Hg as [[_ ->]|(Hex & Hig & Hnb & inUse & cache & ev & Hsv & _ & Hcase)];
    [destruct Hin|].
  assert (Hnosys : ~ In (LogAlarm format a) ev).
  { intros Hin'. pose proof (smartVerify_events_sys cfg (tcp_Destination hdr) now o
                               (checkedPortCache g) (LogAlarm format a)) as Hsys.
    rewrite Hsv in Hsys. specialize (Hsys Hin'). discriminate. }
  destruct Hcase as [(_ & _ & ->)|(-> & trigger & Hc & ->)]; [contradiction|].
  split; [exact Hrst|]. split; [exact Hack|].
  split; [rewrite <- isExlcudePort_true; congruence|].
  split; [rewrite <- isIgnoredIP_true; congruence|].
  split; [exact Hnb|]. split; [rewrite Hsv; reflexivity|].
  split; [|eapply checkStateEngine_records; eassumption].
  apply in_app_iff in Hin. destruct Hin as [Hin|[Heq|Hin]]; [contradiction | congruence |].
  destruct trigger; [|destruct Hin].
  destruct Hin as [Heq|Hin]; [discriminate|].
  apply runExternalCommand_events in Hin. discriminate.
Qed.

Lemma tcpGuard_alarm_sound_witness :
  exists g',
    tcpGuard_iter cfg_trigger2 initGlobals zeroTCP
      (packet (segment_to_9999 Byte.x02) addr_10_0_0_5 1000 os_free)
    = Some (g', syn_header,
            [SysSocket SOCK_STREAM; SysBind 9999; SysClose;
             LogAlarm "attackalert: %s from host: %s to TCP port: %d"
               [AStr "TCP SYN/Normal scan"; AStr "10.0.0.5"; AInt 9999]])
    /\ 9999 ∈ ports_of "10.0.0.5" (stateEngine g').
Proof.
  destruct (tcpGuard_iter cfg_trigger2 initGlobals zeroTCP
              (packet (segment_to_9999 Byte.x02) addr_10_0_0_5 1000 os_free))
    as [[[g' tcp'] evs]|] eqn:Hrun; [|vm_compute in Hrun; discriminate].
  assert (Hshape : tcp' = syn_header
                   /\ evs = [SysSocket SOCK_STREAM; SysBind 9999; SysClose;
                             LogAlarm "attackalert: %s from host: %s to TCP port: %d"
                               [AStr "TCP SYN/Normal scan"; AStr "10.0.0.5"; AInt 9999]]).
  { vm_compute in Hrun. injection Hrun as _ <- <-. split; reflexivity. }
  destruct Hshape as [-> ->]. exists g'. split; [reflexivity|].
  refine (proj2 (proj2 (proj2 (proj2 (proj2 (proj2 (proj2
    (tcpGuard_alarm_sound cfg_trigger2 initGlobals zeroTCP (segment_to_9999 Byte.x02)
       addr_10_0_0_5 1000 os_free g' syn_header _ _ _ _ Hrun _)))))))).
  - unfold valid_trigger, int_max. simpl. lia.
  - right. right. right. left. reflexivity.
Defined.

(** ** The port cache in the loop *)

(** X10.  A packet that passes the filters and whose port the probe finds
    bound raises no alarm and leaves [stateEngine] as it is: traffic to an
    open service never counts towards the trigger.  The entry it caches
    (with a positive cache duration) then drops every packet to that port,
    from any source, with no system call and no event, until the entry
    expires. *)
Theorem port_in_use_suppresses cfg g addr port now o alarm blockedFormat :
  0 < portCacheDuration cfg -> 0 <= now -> now + portCacheDuration cfg <= int_max ->
  isExlcudePort cfg port = false -> isIgnoredIP cfg addr = false ->
  isBlockedIP cfg (IP_String addr) (stateEngine g) = false ->
  no_valid_entry port now (checkedPortCache g) ->
  socket_err o = false -> bind_err o = true ->
  exists g1,
    guardPacket cfg g addr port now o alarm blockedFormat
    = Some (g1, [SysSocket (probe_type cfg); SysBind port; SysClose])
    /\ stateEngine g1 = stateEngine g
    /\ forall addr' now' o' alarm' blockedFormat',
         now' < now + portCacheDuration cfg ->
         guardPacket cfg g1 addr' port now' o' alarm' blockedFormat' = Some (g1, []).
Proof.
  intros HD Hnow Hmax Hex Hig Hnb Hstale Hs Hb.
  assert (Hexp : int_add now (portCacheDuration cfg) = now + portCacheDuration cfg).
  { apply int_wrap_id. unfold int_min. lia. }
  eexists. split; [|split].
  - unfold guardPacket. rewrite Hex, Hig, Hnb.
    rewrite (smartVerify_live cfg port now o _ HD Hstale).
    rewrite (smartVerifyPort_bound cfg port o Hs Hb). cbn [fst snd]. reflexivity.
  - reflexivity.
  - intros addr' now' o' alarm' blockedFormat' Hlt. unfold guardPacket.
    destruct (isExlcudePort cfg port); [reflexivity|].
    destruct (isIgnoredIP cfg addr'); [reflexivity|].
    destruct (isBlockedIP cfg (IP_String addr') _); [reflexivity|].
    cbn [checkedPortCache stateEngine].
    erewrite smartVerify_hit; [reflexivity | exact HD | apply lookup_insert_eq | lia].
Qed.

Lemma port_in_use_suppresses_witness :
  exists g1,
    guardPacket cfg_trigger2 initGlobals addr_10_0_0_5 80 1000 os_bound
      (LogAlarm "attackalert: %s from host: %s to TCP port: %d"
         [AStr tcpPacketTypeSYN; AStr "10.0.0.5"; AInt 80])
      "Host: %s Port: %d TCP Blocked"
    = Some (g1, [SysSocket (probe_type cfg_trigger2); SysBind 80; SysClose])
    /\ stateEngine g1 = stateEngine initGlobals
    /\ guardPacket cfg_trigger2 g1 (mkIP Byte.x0a Byte.x00 Byte.x00 Byte.x07) 80 1059 os_free
         (LogAlarm "attackalert: %s from host: %s to TCP port: %d"
            [AStr tcpPacketTypeNull; AStr "10.0.0.7"; AInt 80])
         "Host: %s Port: %d TCP Blocked"
       = Some (g1, []).
Proof.
  destruct (port_in_use_suppresses cfg_trigger2 initGlobals addr_10_0_0_5 80 1000 os_bound
              (LogAlarm "attackalert: %s from host: %s to TCP port: %d"
                 [AStr tcpPacketTypeSYN; AStr "10.0.0.5"; AInt 80])
              "Host: %s Port: %d TCP Blocked") as (g1 & H1 & H2 & H3).
  - simpl. lia.
  - lia.
  - unfold int_max. simpl. lia.
  - reflexivity.
  - reflexivity.
  - reflexivity.
  - intros expire Hlk. simpl in Hlk. rewrite lookup_empty in Hlk. discriminate.
  - reflexivity.
  - reflexivity.
  - exists g1. split; [exact H1|]. split; [exact H2|]. apply H3. simpl. lia.
Defined.

(** X11.  A call of [smartVerify] for one port never changes what is cached
    for another port; and, with a positive cache duration, an entry found
    for the port after the call is either the entry that was there and is
    still valid, or a new one, [now + duration], written after a positive
    probe. *)
Theorem smartVerify_entries cfg port now o cache :
  (forall q, q <> port ->
     snd (fst (smartVerify cfg port now o cache)) !! q = cache !! q)
  /\ (0 < portCacheDuration cfg ->
      forall expire,
        snd (fst (smartVerify cfg port now o cache)) !! port = Some expire ->
        (cache !! port = Some expire /\ now < expire)
        \/ (expire = int_add now (portCacheDuration cfg)
            /\ fst (smartVerifyPort cfg port o) = true)).
Proof.
  unfold smartVerify. destruct (smartVerifyPort cfg port o) as [ok ev]. cbn [fst].
  split.
  - intros q Hq. destruct (portCacheDuration cfg <=? 0); [reflexivity|].
    destruct (cache !! port) as [expire|]; [destruct (now <? expire); [reflexivity|]|];
      destruct ok; cbn [fst snd];
      rewrite ?lookup_insert_ne, ?lookup_delete_ne by congruence; reflexivity.
  - intros HD expire. destruct (Z.leb_spec (portCacheDuration cfg) 0); [lia|].
    destruct (cache !! port) as [old|] eqn:Hlk.
    + destruct (Z.ltb_spec now old).
      * cbn [fst snd]. rewrite Hlk. intros [= <-]. left. auto.
      * destruct ok; cbn [fst snd].
        -- rewrite lookup_insert_eq. intros [= <-]. right. auto.
        -- rewrite lookup_delete_eq. discriminate.
    + destruct ok; cbn [fst snd].
      * rewrite lookup_insert_eq. intros [= <-]. right. auto.
      * rewrite Hlk. discriminate.
Qed.

Lemma smartVerify_entries_witness :
  snd (fst (smartVerify cfg_trigger2 80 1000 os_bound {[ 22 := 1030 ]})) !! 22
  = ({[ 22 := 1030 ]} : gmap Z Z) !! 22
  /\ ((({[ 22 := 1030 ]} : gmap Z Z) !! 80 = Some 1060 /\ 1000 < 1060)
      \/ (1060 = int_add 1000 (portCacheDuration cfg_trigger2)
          /\ fst (smartVerifyPort cfg_trigger2 80 os_bound) = true)).
Proof.
  destruct (smartVerify_entries cfg_trigger2 80 1000 os_bound {[ 22 := 1030 ]}) as [Hframe Hnew].
  split.
  - apply Hframe. discriminate.
  - apply Hnew; [simpl; lia | vm_compute; reflexivity].
Defined.

(** X12.  With a cache duration of zero or less, caching is off: no run of
    either loop ever writes to (or deletes from) [checkedPortCache]. *)
Theorem cache_off_never_written cfg g inputs :
  portCacheDuration cfg <= 0 ->
  (forall tcp g' tcp' evs,
     tcpGuard_run cfg g tcp inputs = Some (g', tcp', evs) ->
     checkedPortCache g' = checkedPortCache g)
  /\ (forall udp g' udp' evs,
        udpGuard_run cfg g udp inputs = Some (g', udp', evs) ->
        checkedPortCache g' = checkedPortCache g).
Proof.
  intros HD.
  assert (Hpacket : forall g addr port now o alarm blockedFormat g' evs,
            guardPacket cfg g addr port now o alarm blockedFormat = Some (g', evs) ->
            checkedPortCache g' = checkedPortCache g).
  { intros g0 addr port now o alarm blockedFormat g' evs H.
    apply guardPacket_inv in H.
    destruct H as [[-> _]|(_ & _ & _ & inUse & cache & ev & Hsv & -> & _)]; [reflexivity|].
    unfold smartVerify in Hsv. destruct (Z.leb_spec (portCacheDuration cfg) 0); [|lia].
    destruct (smartVerifyPort cfg port o) as [ok ev']. congruence. }
  split.
  - intros tcp g' tcp' evs H.
    apply (tcpGuard_run_lift cfg (fun _ g1 g2 => checkedPortCache g2 = checkedPortCache g1))
      in H; eauto; congruence.
  - intros udp g' udp' evs H.
    apply (udpGuard_run_lift cfg (fun _ g1 g2 => checkedPortCache g2 = checkedPortCache g1))
      in H; eauto; congruence.
Qed.

Lemma cache_off_never_written_witness :
  exists g' tcp' evs,
    tcpGuard_run
      {| mode := "tcp"; portCacheDuration := 0; cfgMinPort := 0; cfgMaxPort := 65535;
         cfgNoisyPorts := ∅; cfgExcludePorts := ∅; cfgIgnoreIps := [];
         cfgKillRoute := EmptyString; cfgKillRunCmd := EmptyString;
         cfgKillNotifyUrl := EmptyString; cfgScanTrigger := 2 |}
      initGlobals zeroTCP
      [ packet (segment_to_9999 Byte.x02) addr_10_0_0_5 1000 os_bound ]
    = Some (g', tcp', evs)
    /\ checkedPortCache g' = checkedPortCache initGlobals.
Proof.
  match goal with
  | |- exists g' tcp' evs, ?run = _ /\ _ =>
      destruct run as [[[g' tcp'] evs]|] eqn:Hrun; [|vm_compute in Hrun; discriminate]
  end.
  exists g', tcp', evs. split; [reflexivity|].
  refine (proj1 (cache_off_never_written _ initGlobals _ _) zeroTCP g' tcp' evs Hrun).
  simpl. lia.
Defined.

(** ** Failed reads *)

Lemma without_main_log_app evs evs' :
  without_main_log (evs ++ evs') = without_main_log evs ++ without_main_log evs'.
Proof. unfold without_main_log. apply List.filter_app. Qed.

Lemma without_main_log_id evs :
  (forall e, In e evs -> is_main_log e = false) -> without_main_log evs = evs.
Proof.
  induction evs as [|e rest IH]; intros H; [reflexivity|].
  unfold without_main_log. cbn [List.filter]. rewrite (H e (or_introl eq_refl)). cbn [negb].
  f_equal. apply IH. intros e' He'. apply H. right. exact He'.
Qed.

Lemma guardPacket_no_main_log cfg g addr port now o alarm blockedFormat g' evs :
  is_main_log alarm = false ->
  guardPacket cfg g addr port now o alarm blockedFormat = Some (g', evs) ->
  forall e, In e evs -> is_main_log e = false.
Proof.
  intros Halarm H e He. apply guardPacket_inv in H.
  destruct H as [[_ ->]|(_ & _ & _ & inUse & cache & ev & Hsv & _ & Hcase)]; [destruct He|].
  assert (Hev : forall e, In e ev -> is_main_log e = false).
  { intros e' He'. pose proof (smartVerify_events_sys cfg port now o (checkedPortCache g) e') as Hs.
    rewrite Hsv in Hs. specialize (Hs He'). destruct e'; try discriminate; reflexivity. }
  destruct Hcase as [(_ & _ & ->)|(_ & trigger & _ & ->)]; [auto|].
  apply in_app_iff in He. destruct He as [He|[<-|He]]; [auto | exact Halarm |].
  destruct trigger; [|destruct He]. destruct He as [<-|He]; [reflexivity|].
  apply runExternalCommand_events in He. subst e. reflexivity.
Qed.

Lemma tcpGuard_iter_read_ok cfg g tcp i g' tcp' evs :
  is_read_ok i = true -> tcpGuard_iter cfg g tcp i = Some (g', tcp', evs) ->
  forall e, In e evs -> is_main_log e = false.
Proof.
  unfold is_read_ok, tcpGuard_iter. destruct (read i) as [err|data remoteAddr]; [discriminate|].
  intros _. destruct (HasFlag _ RST || HasFlag _ ACK); [intros [= _ _ <-] e []|].
  destruct (guardPacket _ _ _ _ _ _ _ _) as [[g1 ev1]|] eqn:Hg; [|discriminate].
  intros [= _ _ <-]. eapply guardPacket_no_main_log, Hg. reflexivity.
Qed.

Lemma udpGuard_iter_read_ok cfg g udp i g' udp' evs :
  is_read_ok i = true -> udpGuard_iter cfg g udp i = Some (g', udp', evs) ->
  forall e, In e evs -> is_main_log e = false.
Proof.
  unfold is_read_ok, udpGuard_iter. destruct (read i) as [err|data remoteAddr]; [discriminate|].
  intros _. destruct (cfgNoisyPorts cfg !! _); [intros [= _ _ <-] e []|].
  destruct (guardPacket _ _ _ _ _ _ _ _) as [[g1 ev1]|] eqn:Hg; [|discriminate].
  intros [= _ _ <-] e [<-|He]; [reflexivity|].
  eapply guardPacket_no_main_log; [|exact Hg|exact He]. reflexivity.
Qed.

(** X13.  A failed read costs one [logMain] line (never a fatal one) and
    nothing else: the run over all inputs ends in the same maps and the
    same header variable, with the same other events, as the run over the
    inputs whose read succeeded. *)
Theorem read_errors_are_skipped cfg inputs :
  (forall g tcp,
     tcpGuard_run cfg g tcp (List.filter is_read_ok inputs)
     = (fun r => (fst r, without_main_log (snd r))) <$> tcpGuard_run cfg g tcp inputs)
  /\ (forall g udp,
        udpGuard_run cfg g udp (List.filter is_read_ok inputs)
        = (fun r => (fst r, without_main_log (snd r))) <$> udpGuard_run cfg g udp inputs)
  /\ (forall g tcp g' tcp' evs exit format a,
        tcpGuard_run cfg g tcp inputs = Some (g', tcp', evs) ->
        In (LogMain exit format a) evs -> exit = false)
  /\ (forall g udp g' udp' evs exit format a,
        udpGuard_run cfg g udp inputs = Some (g', udp', evs) ->
        In (LogMain exit format a) evs -> exit = false).
Proof.
  induction inputs as [|i rest (IHt & IHu & IHt' & IHu')].
  - repeat split; try reflexivity; simpl; intros; simplify_eq; contradiction.
  - assert (Hcases : (exists err, read i = ReadError err) \/ is_read_ok i = true).
    { unfold is_read_ok. destruct (read i); eauto. }
    split; [|split; [|split]].
    + intros g tcp. cbn [List.filter tcpGuard_run]. destruct Hcases as [[err Herr]|Hok].
      * unfold is_read_ok, tcpGuard_iter. rewrite Herr. rewrite IHt.
        destruct (tcpGuard_run cfg g tcp rest) as [[[g2 tcp2] ev2]|]; reflexivity.
      * rewrite Hok. cbn [tcpGuard_run].
        destruct (tcpGuard_iter cfg g tcp i) as [[[g1 tcp1] ev1]|] eqn:Hi; [|reflexivity].
        rewrite IHt.
        destruct (tcpGuard_run cfg g1 tcp1 rest) as [[[g2 tcp2] ev2]|]; [|reflexivity].
        cbn. rewrite without_main_log_app.
        rewrite (without_main_log_id ev1 (tcpGuard_iter_read_ok cfg g tcp i g1 tcp1 ev1 Hok Hi)).
        reflexivity.
    + intros g udp. cbn [List.filter udpGuard_run]. destruct Hcases as [[err Herr]|Hok].
      * unfold is_read_ok, udpGuard_iter. rewrite Herr. rewrite IHu.
        destruct (udpGuard_run cfg g udp rest) as [[[g2 udp2] ev2]|]; reflexivity.
      * rewrite Hok. cbn [udpGuard_run].
        destruct (udpGuard_iter cfg g udp i) as [[[g1 udp1] ev1]|] eqn:Hi; [|reflexivity].
        rewrite IHu.
        destruct (udpGuard_run cfg g1 udp1 rest) as [[[g2 udp2] ev2]|]; [|reflexivity].
        cbn. rewrite without_main_log_app.
        rewrite (without_main_log_id ev1 (udpGuard_iter_read_ok cfg g udp i g1 udp1 ev1 Hok Hi)).
        reflexivity.
    + intros g tcp g' tcp' evs exit format a. cbn [tcpGuard_run].
      destruct (tcpGuard_iter cfg g tcp i) as [[[g1 tcp1] ev1]|] eqn:Hi; [|discriminate].
      destruct (tcpGuard_run cfg g1 tcp1 rest) as [[[g2 tcp2] ev2]|] eqn:Hr; [|discriminate].
      intros [= _ _ <-] Hin. apply in_app_iff in Hin. destruct Hin as [Hin|Hin]; [|eauto].
      destruct Hcases as [[err Herr]|Hok].
      * unfold tcpGuard_iter in Hi. rewrite Herr in Hi. injection Hi as _ _ <-.
        destruct Hin as [[= <- _ _]|[]]. reflexivity.
      * pose proof (tcpGuard_iter_read_ok cfg g tcp i g1 tcp1 ev1 Hok Hi _ Hin). discriminate.
    + intros g udp g' udp' evs exit format a. cbn [udpGuard_run].
      destruct (udpGuard_iter cfg g udp i) as [[[g1 udp1] ev1]|] eqn:Hi; [|discriminate].
      destruct (udpGuard_run cfg g1 udp1 rest) as [[[g2 udp2] ev2]|] eqn:Hr; [|discriminate].
      intros [= _ _ <-] Hin. apply in_app_iff in Hin. destruct Hin as [Hin|Hin]; [|eauto].
      destruct Hcases as [[err Herr]|Hok].
      * unfold udpGuard_iter in Hi. rewrite Herr in Hi. injection Hi as _ _ <-.
        destruct Hin as [[= <- _ _]|[]]. reflexivity.
      * pose proof (udpGuard_iter_read_ok cfg g udp i g1 udp1 ev1 Hok Hi _ Hin). discriminate.
Qed.

Lemma read_errors_are_skipped_witness :
  tcpGuard_run cfg_trigger2 initGlobals zeroTCP
    (List.filter is_read_ok
       [ {| read := ReadError "recvfrom: interrupted"; clock := 999; os := os_free |};
         packet (segment_to_9999 Byte.x02) addr_10_0_0_5 1000 os_free ])
  = (fun r => (fst r, without_main_log (snd r)))
      <$> tcpGuard_run cfg_trigger2 initGlobals zeroTCP
            [ {| read := ReadError "recvfrom: interrupted"; clock := 999; os := os_free |};
              packet (segment_to_9999 Byte.x02) addr_10_0_0_5 1000 os_free ]
  /\ exists g' tcp' evs,
       tcpGuard_run cfg_trigger2 initGlobals zeroTCP
         [ {| read := ReadError "recvfrom: interrupted"; clock := 999; os := os_free |};
           packet (segment_to_9999 Byte.x02) addr_10_0_0_5 1000 os_free ]
       = Some (g', tcp', LogMain false "read from ip:%s" [AStr "recvfrom: interrupted"] :: evs)
       /\ false = false.
Proof.
  destruct (read_errors_are_skipped cfg_trigger2
              [ {| read := ReadError "recvfrom: interrupted"; clock := 999; os := os_free |};
                packet (segment_to_9999 Byte.x02) addr_10_0_0_5 1000 os_free ])
    as (Ht & _ & Hexit & _).
  split; [apply Ht|].
  destruct (tcpGuard_run cfg_trigger2 initGlobals zeroTCP
              [ {| read := ReadError "recvfrom: interrupted"; clock := 999; os := os_free |};
                packet (segment_to_9999 Byte.x02) addr_10_0_0_5 1000 os_free ])
    as [[[g' tcp'] evs]|] eqn:Hrun; [|vm_compute in Hrun; discriminate].
  assert (Hhead : exists evs', evs = LogMain false "read from ip:%s"
                                       [AStr "recvfrom: interrupted"] :: evs').
  { vm_compute in Hrun. injection Hrun as _ _ <-. eexists. reflexivity. }
  destruct Hhead as [evs' ->]. exists g', tcp', evs'. split; [reflexivity|].
  symmetry. eapply (Hexit initGlobals zeroTCP g' tcp' _ _ _ _ Hrun). left. reflexivity.
Defined.

(** * Start-up *)

(** ** Numbers of the configuration file *)

Lemma digits_string_of_uint d : forall n,
  digits (NilEmpty.string_of_uint d) n = Some (uint_value d n).
Proof.
  induction d; intros n; [reflexivity|..];
    cbn [NilEmpty.string_of_uint digits uint_value];
    match goal with
    | |- context [digit_of ?c] =>
        let v := eval vm_compute in (digit_of c) in change (digit_of c) with v
    end;
    apply IHd.
Qed.

Lemma uint_value_pos d : forall acc,
  uint_value d (Z.pos acc) = Z.pos (Pos.of_uint_acc d acc).
Proof.
  induction d; intros acc; cbn [uint_value Pos.of_uint_acc]; [reflexivity|..];
    rewrite <- IHd; f_equal; lia.
Qed.

Lemma uint_value_0 d : uint_value d 0 = Z.of_N (Pos.of_uint d).
Proof.
  induction d; cbn [uint_value Pos.of_uint]; [reflexivity | exact IHd |..];
    cbn [Z.mul Z.add Z.of_N]; apply uint_value_pos.
Qed.

Lemma digits_of_positive p :
  digits (NilEmpty.string_of_uint (Pos.to_uint p)) 0 = Some (Z.pos p).
Proof.
  rewrite digits_string_of_uint, uint_value_0, DecimalPos.Unsigned.of_to. reflexivity.
Qed.

(** The decimal text of a positive number starts with a digit. *)
Lemma string_of_positive p :
  exists c rest,
    NilZero.string_of_uint (Pos.to_uint p) = String c rest
    /\ NilZero.string_of_uint (Pos.to_uint p) = NilEmpty.string_of_uint (Pos.to_uint p)
    /\ c <> "-"%char /\ c <> "+"%char.
Proof.
  pose proof (DecimalPos.Unsigned.to_uint_nonnil p) as Hnil.
  destruct (Pos.to_uint p); [congruence|..]; cbn; eexists _, _;
    (split; [reflexivity|]); (split; [reflexivity|]); split; discriminate.
Qed.

Lemma Atoi_itoa n : int_min <= n <= int_max -> Atoi (itoa n) = Some n.
Proof.
  intros Hn. unfold itoa.
  destruct n as [|p|p]; [reflexivity|..]; cbn [Z.to_int NilZero.string_of_int];
    destruct (string_of_positive p) as (c & rest & Hs & Hs' & Hm & Hp);
    assert (Hd : digits (String c rest) 0 = Some (Z.pos p))
      by (rewrite <- Hs, Hs'; apply digits_of_positive);
    unfold Atoi; rewrite Hs.
  - assert (Hbody : (match String c rest with
                     | String "-" rest0 => (true, rest0)
                     | String "+" rest0 => (false, rest0)
                     | _ => (false, String c rest)
                     end) = (false, String c rest)).
    { destruct c as [[] [] [] [] [] [] [] []]; try reflexivity; congruence. }
    rewrite Hbody, Hd. cbv zeta.
    destruct (Z.leb_spec int_min (Z.pos p)), (Z.leb_spec (Z.pos p) int_max);
      try lia; reflexivity.
  - cbv beta iota. rewrite Hd. cbv zeta. change (- Z.pos p) with (Z.neg p).
    destruct (Z.leb_spec int_min (Z.neg p)), (Z.leb_spec (Z.neg p) int_max);
      try lia; reflexivity.
Qed.

Lemma parseInt_range lineno token value v :
  parseInt lineno token value = Value v -> Atoi value = Some v /\ 0 <= v <= int_max.
Proof.
  unfold parseInt. destruct (Atoi value) as [n|] eqn:Hatoi; [|discriminate].
  destruct (Z.ltb_spec n 0); [discriminate|]. intros [= <-]. split; [reflexivity|].
  split; [assumption|].
  unfold Atoi in Hatoi.
  destruct (match value with
            | String "-" rest => (true, rest)
            | String "+" rest => (false, rest)
            | _ => (false, value)
            end) as [neg body].
  destruct body as [|c rest]; [discriminate|].
  destruct (digits (String c rest) 0) as [m|]; [|discriminate].
  cbv zeta in Hatoi.
  destruct (Z.leb_spec int_min (if neg then - m else m)); [|discriminate].
  destruct (Z.leb_spec (if neg then - m else m) int_max); [|discriminate].
  injection Hatoi as <-. assumption.
Qed.

(** X14.  [parseInt] returns only values from 0 to the largest [int]; it
    returns n for the decimal text of every such n; and for the decimal
    text of a negative [int], which [strconv.Atoi] accepts, it ends the
    process with the "invalid value" line. *)
Theorem parseInt_accepts_naturals lineno token :
  (forall value v, parseInt lineno token value = Value v -> 0 <= v <= int_max)
  /\ (forall n, 0 <= n <= int_max -> parseInt lineno token (itoa n) = Value n)
  /\ (forall n, int_min <= n < 0 ->
        parseInt lineno token (itoa n)
        = Fatal "line %d:%s, invalid value:%d" [CInt lineno; CStr token; CInt n]).
Proof.
  split; [|split].
  - intros value v Hv. apply parseInt_range in Hv. tauto.
  - intros n Hn. unfold parseInt. rewrite Atoi_itoa by (unfold int_min; lia).
    destruct (Z.ltb_spec n 0); [lia | reflexivity].
  - intros n Hn. unfold parseInt. rewrite Atoi_itoa by (unfold int_max; lia).
    destruct (Z.ltb_spec n 0); [reflexivity | lia].
Qed.

Lemma parseInt_accepts_naturals_witness :
  parseInt 7 "scan_trigger" (itoa 2) = Value 2
  /\ parseInt 7 "scan_trigger" (itoa (-1))
     = Fatal "line %d:%s, invalid value:%d" [CInt 7; CStr "scan_trigger"; CInt (-1)].
Proof.
  destruct (parseInt_accepts_naturals 7 "scan_trigger") as (_ & Hok & Hneg).
  split.
  - apply Hok. unfold int_max. lia.
  - apply Hneg. unfold int_min. lia.
Defined.

(** ** The ignore list after start-up *)

Lemma byteZ_land_ff b : Z.land (byteZ b) (byteZ Byte.xff) = byteZ b.
Proof. destruct b; reflexivity. Qed.

Lemma same_under_mask_ff n x : same_under_mask n Byte.xff x = true <-> x = n.
Proof.
  unfold same_under_mask. rewrite !byteZ_land_ff, Z.eqb_eq.
  split; [intros H; symmetry; apply byteZ_inj, H | intros ->; reflexivity].
Qed.

Lemma same_under_mask_00 n x : same_under_mask n Byte.x00 x = true.
Proof.
  unfold same_under_mask. change (byteZ Byte.x00) with 0.
  rewrite !Z.land_0_r. reflexivity.
Qed.

(** A /32 network contains its own address and no other. *)
Lemma Contains_host ip x :
  Contains {| net_IP := ip; net_Mask := mask32 |} x = true <-> x = ip.
Proof.
  unfold Contains, mask32. cbn [net_IP net_Mask ip0 ip1 ip2 ip3].
  rewrite !andb_true_iff, !same_under_mask_ff.
  destruct ip, x; cbn [ip0 ip1 ip2 ip3]. split.
  - intros [[[-> ->] ->] ->]. reflexivity.
  - intros [= -> -> -> ->]. auto.
Qed.

(** The default network contains exactly the addresses 127.x.y.z. *)
Lemma Contains_loopback x : Contains loopbackNet x = true <-> ip0 x = Byte.x7f.
Proof.
  unfold Contains, loopbackNet. cbn [net_IP net_Mask ip0 ip1 ip2 ip3].
  rewrite !same_under_mask_00, !andb_true_r. apply same_under_mask_ff.
Qed.

Lemma ignored_set cfg nets ip :
  ignored (set_cfgIgnoreIps cfg nets) ip <-> exists n, In n nets /\ Contains n ip = true.
Proof. reflexivity. Qed.

Lemma add_local_addr_ignored cfg a ip :
  ignored (add_local_addr cfg a) ip
  <-> ignored cfg ip \/ (addr_Network a = "ip+net" /\ addr_IP4 a = Some ip).
Proof.
  unfold add_local_addr.
  destruct (String.eqb_spec (addr_Network a) "ip+net") as [Hnet|Hnet]; [|tauto].
  destruct (addr_IP4 a) as [own|]; [|split; [tauto | intros [?|[_ [=]]]; assumption]].
  destruct (isIgnoredIP cfg own) eqn:Hown; cbn [negb].
  - apply isIgnoredIP_true in Hown. split; [tauto|].
    intros [?|[_ [= ->]]]; assumption.
  - rewrite ignored_set. unfold ignored. split.
    + intros (n & Hin & Hc). apply in_app_iff in Hin. destruct Hin as [Hin|[<-|[]]].
      * left. eauto.
      * right. apply Contains_host in Hc. subst. auto.
    + intros [(n & Hin & Hc)|[_ [= ->]]].
      * exists n. rewrite in_app_iff. auto.
      * eexists. rewrite in_app_iff. split; [right; left; reflexivity|].
        apply Contains_host. reflexivity.
Qed.

Lemma fold_add_local_addr_ignored addrs : forall cfg ip,
  ignored (fold_left add_local_addr addrs cfg) ip
  <-> ignored cfg ip \/ local_addr addrs ip.
Proof.
  unfold local_addr. induction addrs as [|a rest IH]; intros cfg ip; cbn [fold_left].
  - split; [tauto | intros [?|(a & [] & _)]; assumption].
  - rewrite IH, add_local_addr_ignored. split.
    + intros [[?|[? ?]]|(b & ? & ? & ?)]; [tauto | right; exists a | right; exists b];
        simpl; auto.
    + intros [?|(b & [<-|?] & ? & ?)]; [tauto | tauto | right; exists b; auto].
Qed.

Lemma add_local_addr_fields cfg a :
  cfgScanTrigger (add_local_addr cfg a) = cfgScanTrigger cfg
  /\ cfgMinPort (add_local_addr cfg a) = cfgMinPort cfg
  /\ cfgMaxPort (add_local_addr cfg a) = cfgMaxPort cfg
  /\ cfgExcludePorts (add_local_addr cfg a) = cfgExcludePorts cfg
  /\ cfgNoisyPorts (add_local_addr cfg a) = cfgNoisyPorts cfg
  /\ portCacheDuration (add_local_addr cfg a) = portCacheDuration cfg.
Proof.
  unfold add_local_addr. destruct (String.eqb _ _); [|auto 10].
  destruct (addr_IP4 a); [|auto 10]. destruct (negb _); auto 10.
Qed.

Lemma startup_ignored addrs cfg ip :
  ignored (fold_left add_local_addr addrs
             (set_cfgIgnoreIps cfg (cfgIgnoreIps cfg ++ [loopbackNet]))) ip
  <-> ignored cfg ip \/ ip0 ip = Byte.x7f \/ local_addr addrs ip.
Proof.
  rewrite fold_add_local_addr_ignored, ignored_set.
  unfold ignored. split.
  - intros [(n & Hin & Hc)|?]; [|tauto].
    apply in_app_iff in Hin. destruct Hin as [Hin|[<-|[]]]; [left; eauto|].
    right. left. apply Contains_loopback, Hc.
  - intros [(n & Hin & Hc)|[Hlo|?]]; [| |tauto]; left.
    + exists n. rewrite in_app_iff. auto.
    + exists loopbackNet. rewrite in_app_iff. split; [right; left; reflexivity|].
      apply Contains_loopback, Hlo.
Qed.

(** X15.  When the interface addresses can be read, [configGuard] never
    ends the process, and afterwards a source is ignored exactly if it was
    ignored by the configuration, or is a loopback address 127.x.y.z, or is
    one of the IPv4 addresses of the local interfaces; no other address
    becomes ignored.  The scan trigger and the port settings are not
    touched. *)
Theorem configGuard_ignores_self debug cfgAlarmLog cfgBlockedLog addrs cfg :
  exists su,
    configGuard debug cfgAlarmLog cfgBlockedLog (inl addrs) cfg = Value su
    /\ (forall ip,
          isIgnoredIP (su_cfg su) ip = true
          <-> isIgnoredIP cfg ip = true \/ ip0 ip = Byte.x7f \/ local_addr addrs ip)
    /\ cfgScanTrigger (su_cfg su) = cfgScanTrigger cfg
    /\ cfgMinPort (su_cfg su) = cfgMinPort cfg
    /\ cfgMaxPort (su_cfg su) = cfgMaxPort cfg
    /\ cfgExcludePorts (su_cfg su) = cfgExcludePorts cfg.
Proof.
  eexists. split; [reflexivity|]. cbn [su_cfg]. split.
  - intros ip. rewrite !isIgnoredIP_true. apply startup_ignored.
  - assert (Hfold : forall l c,
              cfgScanTrigger (fold_left add_local_addr l c) = cfgScanTrigger c
              /\ cfgMinPort (fold_left add_local_addr l c) = cfgMinPort c
              /\ cfgMaxPort (fold_left add_local_addr l c) = cfgMaxPort c
              /\ cfgExcludePorts (fold_left add_local_addr l c) = cfgExcludePorts c).
    { induction l as [|a l IH]; intros c; cbn [fold_left]; [auto|].
      destruct (IH (add_local_addr c a)) as (-> & -> & -> & ->).
      destruct (add_local_addr_fields c a) as (-> & -> & -> & -> & _). auto. }
    destruct (Hfold addrs (set_cfgIgnoreIps cfg (cfgIgnoreIps cfg ++ [loopbackNet])))
      as (-> & -> & -> & ->).
    auto.
Qed.

Lemma configGuard_ignores_self_witness :
  exists su,
    configGuard false None None
      (inl [ {| addr_Network := "ip+net";
                addr_IP4 := Some (mkIP Byte.xc0 Byte.xa8 Byte.x01 Byte.x05) |};
             {| addr_Network := "ip+net"; addr_IP4 := None |} ])
      cfg_trigger2 = Value su
    /\ isIgnoredIP (su_cfg su) (mkIP Byte.xc0 Byte.xa8 Byte.x01 Byte.x05) = true
    /\ isIgnoredIP (su_cfg su) (mkIP Byte.x7f Byte.x00 Byte.x00 Byte.x01) = true.
Proof.
  destruct (configGuard_ignores_self false None None
              [ {| addr_Network := "ip+net";
                   addr_IP4 := Some (mkIP Byte.xc0 Byte.xa8 Byte.x01 Byte.x05) |};
                {| addr_Network := "ip+net"; addr_IP4 := None |} ]
              cfg_trigger2) as (su & Hrun & Hiff & _).
  exists su. split; [exact Hrun|]. split; apply Hiff.
  - right. right. eexists. split; [left; reflexivity|]. split; reflexivity.
  - right. left. reflexivity.
Defined.

(** X16.  After [configGuard], a packet whose source is a loopback address
    or one of the local interface addresses is dropped by both loops with
    both maps unchanged: the host's own traffic is never probed, alarmed,
    recorded or blocked. *)
Theorem own_traffic_is_dropped debug cfgAlarmLog cfgBlockedLog addrs cfg su addr :
  configGuard debug cfgAlarmLog cfgBlockedLog (inl addrs) cfg = Value su ->
  ip0 addr = Byte.x7f \/ local_addr addrs addr ->
  forall g data now o,
    (forall tcp, exists tcp',
       tcpGuard_iter (su_cfg su) g tcp (packet data addr now o) = Some (g, tcp', []))
    /\ (forall udp, exists udp' evs,
          udpGuard_iter (su_cfg su) g udp (packet data addr now o) = Some (g, udp', evs)
          /\ forall e, In e evs -> exists format a, e = LogPrintf format a).
Proof.
  intros [= <-] Hown g data now o. cbn [su_cfg].
  assert (Hig : isIgnoredIP (fold_left add_local_addr addrs
                               (set_cfgIgnoreIps cfg (cfgIgnoreIps cfg ++ [loopbackNet])))
                  addr = true).
  { apply isIgnoredIP_true, startup_ignored. tauto. }
  split.
  - intros tcp. eexists. apply tcpGuard_iter_dropped.
    intros alarm blockedFormat. apply guardPacket_ignored, Hig.
  - intros udp. eexists. apply udpGuard_iter_dropped.
    intros alarm blockedFormat. apply guardPacket_ignored, Hig.
Qed.

Lemma own_traffic_is_dropped_witness :
  exists tcp',
    tcpGuard_iter
      (fold_left add_local_addr
         [ {| addr_Network := "ip+net";
              addr_IP4 := Some addr_10_0_0_5 |} ]
         (set_cfgIgnoreIps cfg_trigger2 (cfgIgnoreIps cfg_trigger2 ++ [loopbackNet])))
      initGlobals zeroTCP (packet (segment_to_9999 Byte.x02) addr_10_0_0_5 1000 os_free)
    = Some (initGlobals, tcp', []).
Proof.
  refine (proj1 (own_traffic_is_dropped false None None
                   [ {| addr_Network := "ip+net"; addr_IP4 := Some addr_10_0_0_5 |} ]
                   cfg_trigger2 _ addr_10_0_0_5 eq_refl _ initGlobals
                   (segment_to_9999 Byte.x02) 1000 os_free) zeroTCP).
  right. eexists. split; [left; reflexivity|]. split; reflexivity.
Defined.

(** ** Lines of the configuration file *)

Lemma string_app_cons c s t : String c s +:+ t = String c (s +:+ t).
Proof. reflexivity. Qed.

Lemma string_app_assoc (s t u : string) : (s +:+ t) +:+ u = s +:+ (t +:+ u).
Proof.
  induction s as [|c s IH]; [reflexivity|].
  rewrite !string_app_cons, IH. reflexivity.
Qed.

Lemma all_chars_app p s t :
  all_chars p (s +:+ t) = all_chars p s && all_chars p t.
Proof.
  induction s as [|c s IH]; [reflexivity|].
  rewrite string_app_cons. cbn [all_chars]. rewrite IH, andb_assoc. reflexivity.
Qed.

Lemma all_chars_weaken (p q : ascii -> bool) s :
  (forall c, p c = true -> q c = true) -> all_chars p s = true -> all_chars q s = true.
Proof.
  intros Hpq. induction s as [|c s IH]; [reflexivity|]. cbn [all_chars].
  rewrite !andb_true_iff. intros [Hc Hs]. auto.
Qed.

Lemma trim_right_all p w : all_chars p w = true -> trim_right p w = EmptyString.
Proof.
  induction w as [|c w IH]; [reflexivity|]. cbn [all_chars trim_right].
  rewrite andb_true_iff. intros [Hc Hw]. rewrite (IH Hw), Hc. reflexivity.
Qed.

(** Trimming on the right works from the end of a concatenation. *)
Lemma trim_right_app p s t :
  trim_right p (s +:+ t)
  = match trim_right p t with
    | EmptyString => trim_right p s
    | t' => s +:+ t'
    end.
Proof.
  induction s as [|c s IH].
  - change (EmptyString +:+ t) with t. destruct (trim_right p t); reflexivity.
  - rewrite string_app_cons. cbn [trim_right]. rewrite IH.
    destruct (trim_right p t) as [|a t']; [reflexivity|].
    rewrite string_app_cons. destruct s; reflexivity.
Qed.

Lemma all_chars_trim_right p q s :
  all_chars q s = true -> all_chars q (trim_right p s) = true.
Proof.
  induction s as [|c s IH]; [reflexivity|]. cbn [all_chars trim_right].
  rewrite andb_true_iff. intros [Hc Hs]. specialize (IH Hs).
  destruct (trim_right p s) as [|a s'].
  - destruct (p c); [reflexivity|]. cbn [all_chars]. rewrite Hc. reflexivity.
  - cbn [all_chars] in *. rewrite Hc. exact IH.
Qed.

Lemma trim_right_weaken (p q : ascii -> bool) s :
  (forall c, p c = true -> q c = true) ->
  trim_right q s = s -> trim_right p s = s.
Proof.
  intros Hpq. induction s as [|c s IH]; [reflexivity|]. cbn [trim_right].
  destruct (trim_right q s) as [|a s'] eqn:Hq.
  - destruct (q c) eqn:Hqc; [discriminate|]. intros [= <-].
    cbn [trim_right]. destruct (p c) eqn:Hpc; [|reflexivity].
    rewrite (Hpq c Hpc) in Hqc. discriminate.
  - intros [= <-]. rewrite (IH eq_refl). reflexivity.
Qed.

Lemma trim_left_all_app p w s :
  all_chars p w = true -> trim_left p (w +:+ s) = trim_left p s.
Proof.
  induction w as [|c w IH]; [reflexivity|]. cbn [all_chars].
  rewrite andb_true_iff, string_app_cons. intros [Hc Hw].
  cbn [trim_left]. rewrite Hc. exact (IH Hw).
Qed.

Lemma trim_left_length p s : (String.length (trim_left p s) <= String.length s)%nat.
Proof.
  induction s as [|c s IH]; [reflexivity|]. cbn [trim_left].
  destruct (p c); cbn [String.length]; lia.
Qed.

Lemma trim_left_fixed p c s : trim_left p (String c s) = String c s -> p c = false.
Proof.
  cbn [trim_left]. destruct (p c); [|reflexivity]. intros H.
  pose proof (trim_left_length p s) as Hlen. rewrite H in Hlen.
  cbn [String.length] in Hlen. lia.
Qed.

Lemma trim_left_keep p s t :
  trim_left p s = s -> s <> EmptyString -> trim_left p (s +:+ t) = s +:+ t.
Proof.
  destruct s as [|c s]; [congruence|]. intros H _.
  apply trim_left_fixed in H. rewrite string_app_cons. cbn [trim_left]. rewrite H.
  reflexivity.
Qed.

(** White space around a trimmed text is all that [TrimSpace] removes. *)
Lemma TrimSpace_padded a s b :
  all_chars is_space a = true -> all_chars is_space b = true -> trimmed s ->
  TrimSpace (a +:+ s +:+ b) = s.
Proof.
  intros Ha Hb [Hl Hr]. unfold TrimSpace. rewrite (trim_left_all_app _ a _ Ha).
  destruct s as [|c s].
  - change (EmptyString +:+ b) with b.
    rewrite <- (string_app_empty_r b), (trim_left_all_app _ b _ Hb). reflexivity.
  - rewrite (trim_left_keep _ _ b Hl) by discriminate.
    rewrite trim_right_app, (trim_right_all _ b Hb). exact Hr.
Qed.

Lemma cut_app sep a b :
  all_chars (fun c => negb (Ascii.eqb c sep)) a = true ->
  cut sep (a +:+ String sep b) = Some (a, b).
Proof.
  induction a as [|c a IH].
  - intros _. change (EmptyString +:+ String sep b) with (String sep b).
    cbn [cut]. rewrite Ascii.eqb_refl. reflexivity.
  - cbn [all_chars]. rewrite andb_true_iff, string_app_cons. intros [Hc Ha].
    cbn [cut]. apply negb_true_iff in Hc. rewrite Hc, (IH Ha). reflexivity.
Qed.

Lemma cut_none sep s :
  all_chars (fun c => negb (Ascii.eqb c sep)) s = true -> cut sep s = None.
Proof.
  induction s as [|c s IH]; [reflexivity|]. cbn [all_chars cut].
  rewrite andb_true_iff. intros [Hc Hs]. apply negb_true_iff in Hc.
  rewrite Hc, (IH Hs). reflexivity.
Qed.

Lemma trim_left_starts p s :
  trim_left p (trim_left p s) = trim_left p s.
Proof.
  induction s as [|c s IH]; [reflexivity|]. cbn [trim_left].
  destruct (p c) eqn:Hc; [exact IH|]. cbn [trim_left]. rewrite Hc. reflexivity.
Qed.

Lemma trim_right_idem p s : trim_right p (trim_right p s) = trim_right p s.
Proof.
  induction s as [|c s IH]; [reflexivity|]. cbn [trim_right].
  destruct (trim_right p s) as [|a s'] eqn:Hs.
  - destruct (p c) eqn:Hc; [reflexivity|]. cbn [trim_right]. rewrite Hc. reflexivity.
  - cbn [trim_right] in *. rewrite IH. reflexivity.
Qed.

Lemma trim_left_trim_right p s :
  trim_left p s = s -> trim_left p (trim_right p s) = trim_right p s.
Proof.
  destruct s as [|c s]; [reflexivity|]. intros H. apply trim_left_fixed in H.
  cbn [trim_right]. destruct (trim_right p s).
  - rewrite H. cbn [trim_left]. rewrite H. reflexivity.
  - cbn [trim_left]. rewrite H. reflexivity.
Qed.

Lemma TrimSpace_trimmed s : trimmed (TrimSpace s).
Proof.
  unfold trimmed, TrimSpace. split.
  - apply trim_left_trim_right, trim_left_starts.
  - apply trim_right_idem.
Qed.

(** X17.  [parseToken] gives a token only together with a value: a line
    without "=" gives neither, and so does a line whose text after the
    first "=" is empty or blank; a token or value it returns has no white
    space at either end. *)
Theorem parseToken_needs_value line :
  (all_chars (fun c => negb (Ascii.eqb c "=")) line = true ->
   parseToken line = (EmptyString, EmptyString))
  /\ (snd (parseToken line) = EmptyString -> fst (parseToken line) = EmptyString)
  /\ trimmed (fst (parseToken line)) /\ trimmed (snd (parseToken line)).
Proof.
  unfold parseToken, SplitN2, TrimRight. split; [|split; [|split]].
  - intros Hno. rewrite cut_none; [reflexivity|].
    apply all_chars_trim_right, Hno.
  - destruct (cut "=" _) as [[t0 t1]|]; [|reflexivity].
    destruct (String.eqb_spec (TrimSpace t1) EmptyString); [reflexivity|].
    cbn [fst snd]. congruence.
  - destruct (cut "=" _) as [[t0 t1]|]; [|split; reflexivity].
    destruct (String.eqb (TrimSpace t1) EmptyString); [split; reflexivity|].
    apply TrimSpace_trimmed.
  - destruct (cut "=" _) as [[t0 t1]|]; [|split; reflexivity].
    destruct (String.eqb (TrimSpace t1) EmptyString); [split; reflexivity|].
    apply TrimSpace_trimmed.
Qed.

Lemma parseToken_needs_value_witness :
  parseToken "# only a comment" = (EmptyString, EmptyString)
  /\ fst (parseToken "kill_route=   ") = EmptyString.
Proof.
  split.
  - refine (proj1 (parseToken_needs_value "# only a comment") _). vm_compute. reflexivity.
  - refine (proj1 (proj2 (parseToken_needs_value "kill_route=   ")) _). vm_compute. reflexivity.
Defined.

(** X18.  A line [key = value], with any white space around the key and
    the value and any line ending, is read back as (key, value): the key
    is any trimmed ASCII text without "=", the value any trimmed, non-empty
    ASCII text; only the first "=" separates, so the value may itself
    contain "=". *)
Theorem parseToken_key_value w1 key w2 w3 value w4 :
  all_chars is_space w1 = true -> all_chars is_space w2 = true ->
  all_chars is_space w3 = true -> all_chars is_space w4 = true ->
  all_chars is_ascii key = true -> all_chars is_ascii value = true ->
  all_chars (fun c => negb (Ascii.eqb c "=")) key = true ->
  trimmed key -> trimmed value -> value <> EmptyString ->
  parseToken (w1 +:+ key +:+ w2 +:+ "=" +:+ w3 +:+ value +:+ w4) = (key, value).
Proof.
  intros H1 H2 H3 H4 _ _ Hkey Hk Hv Hne.
  assert (Hsp : forall c, is_space c = true -> negb (Ascii.eqb c "=") = true).
  { intros c Hc. destruct (Ascii.eqb_spec c "=") as [->|]; [discriminate | reflexivity]. }
  assert (Hcr : forall c, in_cutset crlf c = true -> is_space c = true).
  { intros c. unfold crlf. cbn [in_cutset]. rewrite !orb_true_iff.
    intros [Hc|[Hc|Hf]]; [| |discriminate]; apply Ascii.eqb_eq in Hc; subst c; reflexivity. }
  destruct value as [|v0 vs]; [congruence|].
  set (value := String v0 vs) in *.
  set (w4' := trim_right (in_cutset crlf) w4).
  assert (H4' : all_chars is_space w4' = true) by (apply all_chars_trim_right, H4).
  assert (Hline : TrimRight (w1 +:+ key +:+ w2 +:+ "=" +:+ w3 +:+ value +:+ w4) crlf
                  = (w1 +:+ key +:+ w2) +:+ String "=" (w3 +:+ value +:+ w4')).
  { unfold TrimRight.
    replace (w1 +:+ key +:+ w2 +:+ "=" +:+ w3 +:+ value +:+ w4)
      with ((w1 +:+ key +:+ w2 +:+ "=" +:+ w3 +:+ value) +:+ w4)
      by (rewrite !string_app_assoc; reflexivity).
    rewrite trim_right_app. fold w4'.
    assert (Hkeep : trim_right (in_cutset crlf) (w1 +:+ key +:+ w2 +:+ "=" +:+ w3 +:+ value)
                    = w1 +:+ key +:+ w2 +:+ "=" +:+ w3 +:+ value).
    { replace (w1 +:+ key +:+ w2 +:+ "=" +:+ w3 +:+ value)
        with ((w1 +:+ key +:+ w2 +:+ "=" +:+ w3) +:+ value)
        by (rewrite !string_app_assoc; reflexivity).
      rewrite trim_right_app.
      rewrite (trim_right_weaken _ _ value Hcr (proj2 Hv)). reflexivity. }
    destruct w4' as [|a w].
    - rewrite Hkeep. rewrite (string_app_empty_r value), !string_app_assoc. reflexivity.
    - rewrite !string_app_assoc. reflexivity. }
  unfold parseToken, SplitN2. rewrite Hline, cut_app.
  - rewrite !(TrimSpace_padded _ _ _) by assumption.
    destruct (String.eqb_spec value EmptyString); [congruence | reflexivity].
  - rewrite !all_chars_app, (all_chars_weaken _ _ w1 Hsp H1), Hkey,
      (all_chars_weaken _ _ w2 Hsp H2). reflexivity.
Qed.

Lemma parseToken_key_value_witness :
  parseToken ("  " +:+ "kill_notify_url" +:+ " " +:+ "=" +:+ " "
              +:+ "http://10.0.0.1/hook?mode=tcp" +:+ crlf)
  = ("kill_notify_url", "http://10.0.0.1/hook?mode=tcp").
Proof.
  apply (parseToken_key_value "  " "kill_notify_url" " " " "
           "http://10.0.0.1/hook?mode=tcp" crlf);
    try (vm_compute; reflexivity).
  - split; vm_compute; reflexivity.
  - split; vm_compute; reflexivity.
  - discriminate.
Defined.

(** ** Reading the configuration file *)

Lemma applyLine_inert env lineno line st :
  inert_line line -> applyLine env lineno line st = Value st.
Proof.
  intros [Hc|Hno]; unfold applyLine.
  - rewrite Hc. reflexivity.
  - destruct (is_comment line); [reflexivity|]. cbn [negb].
    assert (Hp : parseToken line = (EmptyString, EmptyString)).
    { unfold parseToken, SplitN2, TrimRight. rewrite cut_none; [reflexivity|].
      apply all_chars_trim_right, Hno. }
    rewrite Hp. reflexivity.
Qed.

(** X19.  A configuration file that holds nothing but comment lines
    (starting with "#") and lines without "=" is read without any effect:
    every setting keeps the value it had. *)
Theorem readConfigFile_inert_file env file text st :
  (forall line, In line (lines_of text) -> inert_line line) ->
  readConfigFile env file (inl text) st = Value st.
Proof.
  unfold readConfigFile. generalize 0 at 1. generalize (lines_of text).
  intros lines. induction lines as [|line rest IH]; intros lineno Hall; [reflexivity|].
  cbn [readLines]. rewrite applyLine_inert by (apply Hall; left; reflexivity).
  cbn [and_then]. apply IH. intros l Hl. apply Hall. right. exact Hl.
Qed.

Lemma readConfigFile_inert_file_witness :
  readConfigFile {| ParseCIDR := fun _ => None; url_Parse_ok := fun _ => true;
                    OpenFile_ok := fun _ => false |}
    "/etc/portguard.conf"
    (inl ("# portguard" +:+ String "010" ("no setting here" +:+ String "010" EmptyString)))
    (defaultSettings "tcp" 120)
  = Value (defaultSettings "tcp" 120).
Proof.
  apply readConfigFile_inert_file.
  intros line Hin. vm_compute in Hin.
  destruct Hin as [<-|[<-|[<-|[]]]].
  - left. reflexivity.
  - right. vm_compute. reflexivity.
  - right. reflexivity.
Defined.

Lemma applyLine_in_range env lineno line st st' :
  settings_in_range (st_cfg st) -> applyLine env lineno line st = Value st' ->
  settings_in_range (st_cfg st').
Proof.
  intros (Hmin & Hmax & Htrig & Hexcl & Hnoisy). unfold applyLine.
  destruct (is_comment line); cbn [negb];
    [intros [= <-]; unfold settings_in_range; tauto|].
  destruct (parseToken line) as [token value].
  repeat match goal with
         | |- context [String.eqb token ?k] => destruct (String.eqb token k)
         end;
    try (destruct (parseInt lineno token value) as [v|] eqn:Hv; [|discriminate];
         apply parseInt_range in Hv; destruct Hv as [_ Hv]);
    try (destruct (parseIp env lineno token value) as [n|]; [|discriminate]);
    try (destruct (parseFile env lineno token value) as [w|]; [|discriminate]);
    try (destruct (url_Parse_ok env value); cbn [negb]; [|discriminate]);
    cbn [and_then]; intros [= <-]; unfold settings_in_range;
    cbn [st_cfg with_cfg set_alarm_log set_blocked_log set_cfgMinPort set_cfgMaxPort
           add_cfgNoisyPort add_cfgExcludePort add_cfgIgnoreIp set_cfgIgnoreIps
           set_cfgKillRoute set_cfgKillRunCmd set_cfgKillNotifyUrl set_cfgScanTrigger
           cfgMinPort cfgMaxPort cfgScanTrigger cfgExcludePorts cfgNoisyPorts];
    (split; [|split; [|split; [|split]]]);
    first
      [ assumption
      | lia
      | intros port Hport;
        first
          [ apply Hexcl; assumption
          | apply Hnoisy; assumption
          | apply lookup_insert_is_Some in Hport;
            destruct Hport as [<-|[_ Hport]];
            [lia | first [apply Hexcl; assumption | apply Hnoisy; assumption]] ] ].
Qed.

Lemma readLines_in_range env lines : forall lineno st st',
  settings_in_range (st_cfg st) -> readLines env lineno lines st = Value st' ->
  settings_in_range (st_cfg st').
Proof.
  induction lines as [|line rest IH]; intros lineno st st' Hin; cbn [readLines].
  - intros [= <-]. exact Hin.
  - destruct (applyLine env (int_add lineno 1) line st) as [st1|] eqn:H1; [|discriminate].
    cbn [and_then]. apply IH. eapply applyLine_in_range; eassumption.
Qed.

(** X20.  Whatever an (ASCII) configuration file holds, if
    [readConfigFile] returns at all (instead of ending the process), then
    starting from the defaults no numeric setting is negative or too large
    for an [int]: neither the port range, nor the scan trigger, nor any
    excluded or noisy port. *)
Theorem readConfigFile_settings_in_range env file text mode duration st' :
  all_chars is_ascii text = true ->
  readConfigFile env file (inl text) (defaultSettings mode duration) = Value st' ->
  settings_in_range (st_cfg st').
Proof.
  intros _. unfold readConfigFile.
  apply readLines_in_range. unfold settings_in_range, int_max. cbn.
  (split; [|split; [|split; [|split]]]); try lia;
    intros port [b Hb]; rewrite lookup_empty in Hb; discriminate.
Qed.

Lemma readConfigFile_settings_in_range_witness :
  exists st',
    readConfigFile {| ParseCIDR := fun _ => None; url_Parse_ok := fun _ => true;
                      OpenFile_ok := fun _ => false |}
      "/etc/portguard.conf"
      (inl ("scan_trigger=2" +:+ String "010" ("exclude_port = 22" +:+ String "010" EmptyString)))
      (defaultSettings "tcp" 120) = Value st'
    /\ settings_in_range (st_cfg st').
Proof.
  destruct (readConfigFile {| ParseCIDR := fun _ => None; url_Parse_ok := fun _ => true;
                              OpenFile_ok := fun _ => false |}
              "/etc/portguard.conf"
              (inl ("scan_trigger=2" +:+ String "010"
                      ("exclude_port = 22" +:+ String "010" EmptyString)))
              (defaultSettings "tcp" 120)) as [st'|format a] eqn:Hread;
    [|vm_compute in Hread; discriminate].
  exists st'. split; [reflexivity|].
  refine (readConfigFile_settings_in_range _ _ _ _ _ _ _ Hread).
  vm_compute. reflexivity.
Defined.

Lemma applyLine_exclude_kept env lineno line st st' port :
  applyLine env lineno line st = Value st' ->
  is_Some (cfgExcludePorts (st_cfg st) !! port) ->
  is_Some (cfgExcludePorts (st_cfg st') !! port).
Proof.
  unfold applyLine. destruct (is_comment line); cbn [negb]; [intros [= <-]; auto|].
  destruct (parseToken line) as [token value].
  repeat match goal with
         | |- context [String.eqb token ?k] => destruct (String.eqb token k)
         end;
    try (destruct (parseInt lineno token value) as [v|]; [|discriminate]);
    try (destruct (parseIp env lineno token value) as [n|]; [|discriminate]);
    try (destruct (parseFile env lineno token value) as [w|]; [|discriminate]);
    try (destruct (url_Parse_ok env value); cbn [negb]; [|discriminate]);
    cbn [and_then]; intros [= <-]; cbn; auto.
  intros H. apply lookup_insert_is_Some. destruct (decide (v = port)); auto.
Qed.

Lemma readLines_exclude_kept env lines : forall lineno st st' port,
  readLines env lineno lines st = Value st' ->
  is_Some (cfgExcludePorts (st_cfg st) !! port) ->
  is_Some (cfgExcludePorts (st_cfg st') !! port).
Proof.
  induction lines as [|line rest IH]; intros lineno st st' port; cbn [readLines].
  - intros [= <-]. auto.
  - destruct (applyLine env (int_add lineno 1) line st) as [st1|] eqn:H1; [|discriminate].
    cbn [and_then]. intros Hrest Hp. eapply IH; [exact Hrest|].
    eapply applyLine_exclude_kept; eassumption.
Qed.

Lemma applyLine_exclude_port env lineno line st st' value n :
  is_comment line = false -> parseToken line = ("exclude_port", value) ->
  Atoi value = Some n -> applyLine env lineno line st = Value st' ->
  is_Some (cfgExcludePorts (st_cfg st') !! n).
Proof.
  intros Hc Hp Ha. unfold applyLine. rewrite Hc, Hp. cbn [negb].
  change (String.eqb "exclude_port" "min_port") with false.
  change (String.eqb "exclude_port" "max_port") with false.
  change (String.eqb "exclude_port" "noisy_udp_port") with false.
  change (String.eqb "exclude_port" "exclude_port") with true.
  cbv iota. unfold parseInt. rewrite Ha.
  destruct (n <? 0); [discriminate|]. cbn [and_then]. intros [= <-]. cbn.
  rewrite lookup_insert_eq. eauto.
Qed.

(** X21.  If [readConfigFile] returns, every line [exclude_port = n] of the
    (ASCII) file (not a comment, n a number that [strconv.Atoi] reads) has
    taken effect, wherever it stands in the file: port n is excluded, so
    the loop body drops every packet to it; and a port excluded before the
    file was read is still excluded. *)
Theorem exclude_port_line_takes_effect env file text st st' line value n :
  all_chars is_ascii text = true ->
  readConfigFile env file (inl text) st = Value st' ->
  In line (lines_of text) -> is_comment line = false ->
  parseToken line = ("exclude_port", value) -> Atoi value = Some n ->
  excluded (st_cfg st') n
  /\ (forall g addr now o alarm blockedFormat,
        guardPacket (st_cfg st') g addr n now o alarm blockedFormat = Some (g, []))
  /\ (forall port, is_Some (cfgExcludePorts (st_cfg st) !! port) ->
        is_Some (cfgExcludePorts (st_cfg st') !! port)).
Proof.
  intros _. unfold readConfigFile. generalize 0 at 1. generalize (lines_of text).
  intros lines lineno Hread Hin Hc Hp Ha.
  assert (Hn : is_Some (cfgExcludePorts (st_cfg st') !! n)).
  { revert lineno st Hread. induction lines as [|l rest IH]; intros lineno st; [destruct Hin|].
    cbn [readLines].
    destruct (applyLine env (int_add lineno 1) l st) as [st1|] eqn:H1; [|discriminate].
    cbn [and_then]. intros Hrest. destruct Hin as [->|Hin].
    - eapply readLines_exclude_kept; [exact Hrest|].
      eapply applyLine_exclude_port; eassumption.
    - eapply IH; eassumption. }
  assert (Hex : excluded (st_cfg st') n) by (right; right; exact Hn).
  split; [exact Hex|]. split.
  - intros g addr now o alarm blockedFormat.
    apply guardPacket_excluded, isExlcudePort_true, Hex.
  - intros port. eapply readLines_exclude_kept, Hread.
Qed.

Lemma exclude_port_line_takes_effect_witness :
  exists st',
    readConfigFile {| ParseCIDR := fun _ => None; url_Parse_ok := fun _ => true;
                      OpenFile_ok := fun _ => false |}
      "/etc/portguard.conf"
      (inl ("exclude_port = 22" +:+ String "010" ("scan_trigger=2" +:+ String "010" EmptyString)))
      (defaultSettings "tcp" 120) = Value st'
    /\ excluded (st_cfg st') 22.
Proof.
  destruct (readConfigFile {| ParseCIDR := fun _ => None; url_Parse_ok := fun _ => true;
                              OpenFile_ok := fun _ => false |}
              "/etc/portguard.conf"
              (inl ("exclude_port = 22" +:+ String "010"
                      ("scan_trigger=2" +:+ String "010" EmptyString)))
              (defaultSettings "tcp" 120)) as [st'|format a] eqn:Hread;
    [|vm_compute in Hread; discriminate].
  exists st'. split; [reflexivity|].
  refine (proj1 (exclude_port_line_takes_effect _ _ _ _ st'
                   ("exclude_port = 22" +:+ String "010" EmptyString) "22" 22
                   _ Hread _ _ _ _)).
  - vm_compute. reflexivity.
  - vm_compute. left. reflexivity.
  - reflexivity.
  - vm_compute. reflexivity.
  - vm_compute. reflexivity.
Defined.

(** A whole file, read from the defaults. *)
Example readConfigFile_sample :
  readConfigFile sample_env "/etc/portguard.conf"
    (inl ("# ports" +:+ LF +:+ "min_port = 1" +:+ LF +:+ "max_port=1024" +:+ crlf
          +:+ "scan_trigger=2" +:+ LF
          +:+ "kill_route = /sbin/route add -host $TARGET$ reject" +:+ LF
          +:+ "scan_trigger=3"))
    (defaultSettings "tcp" 120)
  = Value (with_cfg
             (fun _ =>
                {| mode := "tcp"; portCacheDuration := 120;
                   cfgMinPort := 1; cfgMaxPort := 1024;
                   cfgNoisyPorts := ∅; cfgExcludePorts := ∅; cfgIgnoreIps := [];
                   cfgKillRoute := "/sbin/route add -host $TARGET$ reject";
                   cfgKillRunCmd := EmptyString; cfgKillNotifyUrl := EmptyString;
                   cfgScanTrigger := 3 |})
             (defaultSettings "tcp" 120)).
Proof. vm_compute. reflexivity. Qed.

(** ** The largest scan trigger *)

(** X22.  The scan trigger 9223372036854775807 (the largest [int]) passes
    [parseInt], but with it [cfgScanTrigger + 1] wraps to a negative
    size: [checkStateEngine] panics in [make] for every source it has not
    seen, and so does the loop body at the first packet of such a source
    that passes the filters and finds its port free. *)
Theorem max_trigger_panics cfg g addr port now o alarm blockedFormat :
  cfgScanTrigger cfg = int_max ->
  isExlcudePort cfg port = false -> isIgnoredIP cfg addr = false ->
  stateEngine g !! IP_String addr = None ->
  fst (fst (smartVerify cfg port now o (checkedPortCache g))) = false ->
  (forall lineno, parseInt lineno "scan_trigger" (itoa int_max) = Value int_max)
  /\ (forall ip port' se, se !! ip = None -> checkStateEngine cfg ip port' se = None)
  /\ guardPacket cfg g addr port now o alarm blockedFormat = None.
Proof.
  intros HT Hex Hig Hnew Hfree.
  assert (Hpanic : forall ip port' se, se !! ip = None ->
            checkStateEngine cfg ip port' se = None).
  { intros ip port' se Hse. unfold checkStateEngine. rewrite Hse, HT. reflexivity. }
  split; [|split; [exact Hpanic|]].
  - intros lineno. unfold parseInt.
    rewrite Atoi_itoa by (unfold int_min, int_max; lia). reflexivity.
  - unfold guardPacket. rewrite Hex, Hig. unfold isBlockedIP. rewrite Hnew.
    destruct (smartVerify cfg port now o (checkedPortCache g)) as [[inUse cache] ev].
    cbn [fst] in Hfree. subst inUse. cbn [stateEngine].
    rewrite (Hpanic _ _ _ Hnew). reflexivity.
Qed.

Lemma max_trigger_panics_witness :
  guardPacket
    {| mode := "tcp"; portCacheDuration := 120; cfgMinPort := 0; cfgMaxPort := 65535;
       cfgNoisyPorts := ∅; cfgExcludePorts := ∅; cfgIgnoreIps := [];
       cfgKillRoute := EmptyString; cfgKillRunCmd := EmptyString;
       cfgKillNotifyUrl := EmptyString; cfgScanTrigger := int_max |}
    initGlobals addr_10_0_0_5 9999 1000 os_free
    (LogAlarm "attackalert: %s from host: %s to TCP port: %d"
       [AStr tcpPacketTypeSYN; AStr "10.0.0.5"; AInt 9999])
    "Host: %s Port: %d TCP Blocked"
  = None.
Proof.
  refine (proj2 (proj2 (max_trigger_panics _ initGlobals addr_10_0_0_5 9999 1000 os_free
                          _ _ _ _ _ _ _))); reflexivity.
Defined.
